(** * SGDK sound control plane: Z80 driver register protocol (sound.c)
      and WAV sample preparation (SoundUtil.java)

    The 68000 side of SGDK talks to the Z80 sound drivers through a window
    of memory-mapped bytes.  Every function of sound.c is embedded here as a
    computation in a small state monad over a machine made of the byte
    memory, the driver currently loaded in the Z80, the bus flag and the
    chronological list of everything the function did (loader, arbiter and
    reset calls, byte reads and byte writes). *)

From Stdlib Require Import ZArith List Lia Bool String.
From Stdlib.Strings Require Import Byte.
Import ListNotations.
Open Scope Z_scope.

Module Z80.

(** ** Machine integers *)

(** Conversion to [u8], [u16] and [u32] keeps the low bits.  Integers are
    in [Z]; [<<], [>>], [&], [|] and [~] are [Z.shiftl], [Z.shiftr],
    [Z.land], [Z.lor] and [Z.lnot], which agree with the 32 bit operations
    of the source for shift counts below 31, and the conversion at each
    byte store cuts the result to 8 bits. *)
Definition to_u8 (x : Z) : Z := x mod 256.
Definition to_u16 (x : Z) : Z := x mod 65536.
Definition to_u32 (x : Z) : Z := x mod 4294967296.

(** ** The machine *)

(** The driver identifiers of z80_ctrl.h. *)
Inductive driver : Type :=
| Z80_DRIVER_PCM
| Z80_DRIVER_2ADPCM
| Z80_DRIVER_4PCM
| Z80_DRIVER_4PCM_ENV
| Z80_DRIVER_MVS
| Z80_DRIVER_TFM.

Definition driver_eqb (a b : driver) : bool :=
  match a, b with
  | Z80_DRIVER_PCM, Z80_DRIVER_PCM
  | Z80_DRIVER_2ADPCM, Z80_DRIVER_2ADPCM
  | Z80_DRIVER_4PCM, Z80_DRIVER_4PCM
  | Z80_DRIVER_4PCM_ENV, Z80_DRIVER_4PCM_ENV
  | Z80_DRIVER_MVS, Z80_DRIVER_MVS
  | Z80_DRIVER_TFM, Z80_DRIVER_TFM => true
  | _, _ => false
  end.

(** What a function of sound.c can be observed to do, in order. *)
Inductive event : Type :=
| EvLoadDriver (d : driver) (waitReady : Z)
| EvRequestBus (wait : Z)
| EvReleaseBus
| EvStartReset
| EvEndReset
| EvRead (addr : Z) (val : Z)
| EvWrite (addr : Z) (val : Z).

Definition memory : Type := Z -> Z.

Definition upd (m : memory) (a v : Z) : memory :=
  fun x => if x =? a then v else m x.

Record machine : Type := mkMachine {
  mem : memory;
  loaded : option driver;
  bus : bool;
  trace : list event
}.

(** C truth of an integer used as a condition. *)
Definition c_true (x : Z) : bool := negb (x =? 0).

(** ** The state monad the functions run in *)

Definition M (A : Type) : Type := machine -> A * machine.

Definition ret {A : Type} (a : A) : M A := fun st => (a, st).

Definition bind {A B : Type} (c : M A) (k : A -> M B) : M B :=
  fun st => let (a, st') := c st in k a st'.

Declare Scope z80_scope.
Delimit Scope z80_scope with z80.
Notation "x <- c ;; k" := (bind c (fun x => k))
  (at level 61, c at next level, right associativity) : z80_scope.
Notation "c ;; k" := (bind c (fun _ => k))
  (at level 61, right associativity) : z80_scope.
Open Scope z80_scope.

Definition exec {A : Type} (c : M A) (st : machine) : machine := snd (c st).
Definition eval {A : Type} (c : M A) (st : machine) : A := fst (c st).

Definition emit (e : event) (st : machine) : machine :=
  mkMachine (mem st) (loaded st) (bus st) (trace st ++ [e]).

(** A read through a [vu8 *]: one byte. *)
Definition load8 (a : Z) : M Z :=
  fun st => let v := to_u8 (mem st a) in (v, emit (EvRead a v) st).

(** A write through a [vu8 *]: the value is converted to [u8]. *)
Definition store8 (a v : Z) : M unit :=
  fun st =>
    let b := to_u8 v in
    (tt, mkMachine (upd (mem st) a b) (loaded st) (bus st)
                   (trace st ++ [EvWrite a b])).

(** Modelled from the spec: [Z80_loadDriver] of z80_ctrl.c is not part of
    the sources.  The spec (section 6, EnsureDriverLoaded) makes it
    idempotent, switching the firmware only when the loaded variant
    differs, and gives it no effect on the register window. *)
Definition Z80_loadDriver (d : driver) (waitReady : Z) : M unit :=
  fun st => (tt, mkMachine (mem st) (Some d) (bus st)
                           (trace st ++ [EvLoadDriver d waitReady])).

(** Modelled from the spec: [Z80_requestBus] of z80_ctrl.c (section 6,
    AcquireBus): the caller owns the bus when it returns. *)
Definition Z80_requestBus (wait : Z) : M unit :=
  fun st => (tt, mkMachine (mem st) (loaded st) true
                           (trace st ++ [EvRequestBus wait])).

(** Modelled from the spec: [Z80_releaseBus] of z80_ctrl.c (section 6,
    ReleaseBus): unconditional release. *)
Definition Z80_releaseBus : M unit :=
  fun st => (tt, mkMachine (mem st) (loaded st) false
                           (trace st ++ [EvReleaseBus])).

(** Modelled from the spec: [Z80_startReset] and [Z80_endReset] of
    z80_ctrl.c (section 6, ResetCoprocessor), observed as calls only. *)
Definition Z80_startReset : M unit := fun st => (tt, emit EvStartReset st).
Definition Z80_endReset : M unit := fun st => (tt, emit EvEndReset st).

(** ** Constants of the headers *)

(** Modelled from the spec: the bit macros of z80_ctrl.h are not part of
    the sources.  Section 4.1 has the command of channel [c] as bit [c] of
    the command byte, and sections 3 and 4.2 have the play and loop state
    of channel [c] as bit [c] of their status byte, so the three macros
    designate bit 0 before the channel shift. *)
Definition Z80_DRV_COM_PLAY : Z := 1.
Definition Z80_DRV_STAT_PLAYING : Z := 1.
Definition Z80_DRV_STAT_PLAYING_SFT : Z := 0.

(** The addresses and values that sound.h, z80_ctrl.h, smp_null.h and
    smp_null_pcm.h define and sound.c only names. *)
Class headers : Type := mkHeaders {
  Z80_DRV_COMMAND : Z;
  Z80_DRV_STATUS : Z;
  Z80_DRV_PARAMS : Z;
  SOUND_PCM_CH_AUTO : Z;
  smp_null : Z;
  sizeof_smp_null : Z;
  smp_null_pcm : Z;
  sizeof_smp_null_pcm : Z;
  SOUND_MVS_SILENCE : Z;
  SOUND_MVS_LOOP : Z;
  SOUND_MVS_ONCE : Z
}.

(** The command byte, the two status bytes and the parameters come in this
    order in the window, without overlap. *)
Definition layout_ok (H : headers) : Prop :=
  Z80_DRV_COMMAND < Z80_DRV_STATUS /\ Z80_DRV_STATUS + 1 < Z80_DRV_PARAMS.

Section Drivers.

Context {H : headers}.

(** ** Z80_DRIVER_PCM *)

Definition SND_isPlaying_PCM : M Z :=
  Z80_loadDriver Z80_DRIVER_PCM 1 ;;
  Z80_requestBus 1 ;;
  let pb := Z80_DRV_STATUS in
  v <- load8 pb ;;
  let ret_ := to_u8 (Z.land v Z80_DRV_STAT_PLAYING) in
  Z80_releaseBus ;;
  ret ret_.

Definition SND_startPlay_PCM (sample len rate pan loop : Z) : M unit :=
  Z80_loadDriver Z80_DRIVER_PCM 1 ;;
  Z80_requestBus 1 ;;
  let pb := Z80_DRV_PARAMS in
  let addr := to_u32 sample in
  store8 (pb + 0) (Z.shiftr addr 8) ;;
  store8 (pb + 1) (Z.shiftr addr 16) ;;
  store8 (pb + 2) (Z.shiftr len 8) ;;
  store8 (pb + 3) (Z.shiftr len 16) ;;
  store8 (pb + 4) rate ;;
  store8 (pb + 6) pan ;;
  let pb := Z80_DRV_COMMAND in
  c <- load8 pb ;;
  store8 pb (Z.lor c Z80_DRV_COM_PLAY) ;;
  let pb := Z80_DRV_STATUS in
  (if c_true loop
   then l <- load8 (pb + 1) ;;
        store8 (pb + 1) (Z.lor l Z80_DRV_STAT_PLAYING)
   else l <- load8 (pb + 1) ;;
        store8 (pb + 1) (Z.land l (Z.lnot Z80_DRV_STAT_PLAYING))) ;;
  Z80_releaseBus.

Definition SND_stopPlay_PCM : M unit :=
  Z80_loadDriver Z80_DRIVER_PCM 1 ;;
  Z80_requestBus 1 ;;
  let pb := Z80_DRV_PARAMS + 0x10 in
  let addr := to_u32 smp_null in
  store8 (pb + 0) (Z.shiftr addr 8) ;;
  store8 (pb + 1) (Z.shiftr addr 16) ;;
  store8 (pb + 2) (Z.shiftr sizeof_smp_null 8) ;;
  store8 (pb + 3) (Z.shiftr sizeof_smp_null 16) ;;
  let pb := Z80_DRV_STATUS in
  p <- load8 (pb + 0) ;;
  store8 (pb + 0) (Z.land p (Z.lnot Z80_DRV_STAT_PLAYING)) ;;
  l <- load8 (pb + 1) ;;
  store8 (pb + 1) (Z.land l (Z.lnot Z80_DRV_STAT_PLAYING)) ;;
  Z80_releaseBus.

(** ** The scan for a free channel

    [while ((ch < n) && (status & (Z80_DRV_STAT_PLAYING << ch))) ch++;]
    with [ch] a [u16].  Each turn of the loop takes one unit of fuel; the
    functions below give it [n] units, one per channel. *)
Fixpoint scan_busy (fuel : nat) (n status ch : Z) : Z :=
  match fuel with
  | O => ch
  | S fuel' =>
      if (ch <? n) && c_true (Z.land status (Z.shiftl Z80_DRV_STAT_PLAYING ch))
      then scan_busy fuel' n status (to_u16 (ch + 1))
      else ch
  end.

(** ** Z80_DRIVER_2ADPCM *)

Definition SND_isPlaying_2ADPCM (channel_mask : Z) : M Z :=
  Z80_loadDriver Z80_DRIVER_2ADPCM 1 ;;
  Z80_requestBus 1 ;;
  let pb := Z80_DRV_STATUS in
  v <- load8 pb ;;
  let ret_ := to_u8 (Z.land v (Z.shiftl channel_mask Z80_DRV_STAT_PLAYING_SFT)) in
  Z80_releaseBus ;;
  ret ret_.

Definition SND_startPlay_2ADPCM (sample len channel loop : Z) : M unit :=
  Z80_loadDriver Z80_DRIVER_2ADPCM 1 ;;
  Z80_requestBus 1 ;;
  let pb := Z80_DRV_STATUS in
  status <- load8 pb ;;
  let ch :=
    if channel =? SOUND_PCM_CH_AUTO
    then
      let ch := scan_busy 2 2 status 0 in
      if ch =? 2 then 0 else ch
    else channel in
  let pb := Z80_DRV_PARAMS + (ch * 4) in
  let addr := to_u32 sample in
  store8 (pb + 0) (Z.shiftr addr 7) ;;
  store8 (pb + 1) (Z.shiftr addr 15) ;;
  store8 (pb + 2) (Z.shiftr len 7) ;;
  store8 (pb + 3) (Z.shiftr len 15) ;;
  let pb := Z80_DRV_COMMAND in
  c <- load8 pb ;;
  store8 pb (Z.lor c (Z.shiftl Z80_DRV_COM_PLAY ch)) ;;
  let pb := Z80_DRV_STATUS in
  (if c_true loop
   then l <- load8 (pb + 1) ;;
        store8 (pb + 1) (Z.lor l (Z.shiftl Z80_DRV_STAT_PLAYING ch))
   else l <- load8 (pb + 1) ;;
        store8 (pb + 1) (Z.land l (Z.lnot (Z.shiftl Z80_DRV_STAT_PLAYING ch)))) ;;
  Z80_releaseBus.

Definition SND_stopPlay_2ADPCM (channel : Z) : M unit :=
  Z80_loadDriver Z80_DRIVER_2ADPCM 1 ;;
  Z80_requestBus 1 ;;
  let pb := Z80_DRV_PARAMS + 0x10 + (channel * 4) in
  let addr := to_u32 smp_null_pcm in
  store8 (pb + 0) (Z.shiftr addr 7) ;;
  store8 (pb + 1) (Z.shiftr addr 15) ;;
  store8 (pb + 2) (Z.shiftr sizeof_smp_null_pcm 7) ;;
  store8 (pb + 3) (Z.shiftr sizeof_smp_null_pcm 15) ;;
  let pb := Z80_DRV_STATUS in
  p <- load8 (pb + 0) ;;
  store8 (pb + 0) (Z.land p (Z.lnot (Z.shiftl Z80_DRV_STAT_PLAYING channel))) ;;
  l <- load8 (pb + 1) ;;
  store8 (pb + 1) (Z.land l (Z.lnot (Z.shiftl Z80_DRV_STAT_PLAYING channel))) ;;
  Z80_releaseBus.

(** ** Z80_DRIVER_4PCM *)

Definition SND_isPlaying_4PCM (channel_mask : Z) : M Z :=
  Z80_loadDriver Z80_DRIVER_4PCM 1 ;;
  Z80_requestBus 1 ;;
  let pb := Z80_DRV_STATUS in
  v <- load8 pb ;;
  let ret_ := to_u8 (Z.land v (Z.shiftl channel_mask Z80_DRV_STAT_PLAYING_SFT)) in
  Z80_releaseBus ;;
  ret ret_.

Definition SND_startPlay_4PCM (sample len channel loop : Z) : M unit :=
  Z80_loadDriver Z80_DRIVER_4PCM 1 ;;
  Z80_requestBus 1 ;;
  let pb := Z80_DRV_STATUS in
  status <- load8 pb ;;
  let ch :=
    if channel =? SOUND_PCM_CH_AUTO
    then
      let ch := scan_busy 4 4 status 0 in
      if ch =? 4 then 0 else ch
    else channel in
  let pb := Z80_DRV_PARAMS + (ch * 4) in
  let addr := to_u32 sample in
  store8 (pb + 0) (Z.shiftr addr 8) ;;
  store8 (pb + 1) (Z.shiftr addr 16) ;;
  store8 (pb + 2) (Z.shiftr len 8) ;;
  store8 (pb + 3) (Z.shiftr len 16) ;;
  let pb := Z80_DRV_COMMAND in
  c <- load8 pb ;;
  store8 pb (Z.lor c (Z.shiftl Z80_DRV_COM_PLAY ch)) ;;
  let pb := Z80_DRV_STATUS in
  (if c_true loop
   then l <- load8 (pb + 1) ;;
        store8 (pb + 1) (Z.lor l (Z.shiftl Z80_DRV_STAT_PLAYING ch))
   else l <- load8 (pb + 1) ;;
        store8 (pb + 1) (Z.land l (Z.lnot (Z.shiftl Z80_DRV_STAT_PLAYING ch)))) ;;
  Z80_releaseBus.

Definition SND_stopPlay_4PCM (channel : Z) : M unit :=
  Z80_loadDriver Z80_DRIVER_4PCM 1 ;;
  Z80_requestBus 1 ;;
  let pb := Z80_DRV_PARAMS + 0x10 + (channel * 4) in
  let addr := to_u32 smp_null in
  store8 (pb + 0) (Z.shiftr addr 8) ;;
  store8 (pb + 1) (Z.shiftr addr 16) ;;
  store8 (pb + 2) (Z.shiftr sizeof_smp_null 8) ;;
  store8 (pb + 3) (Z.shiftr sizeof_smp_null 16) ;;
  let pb := Z80_DRV_STATUS in
  p <- load8 (pb + 0) ;;
  store8 (pb + 0) (Z.land p (Z.lnot (Z.shiftl Z80_DRV_STAT_PLAYING channel))) ;;
  l <- load8 (pb + 1) ;;
  store8 (pb + 1) (Z.land l (Z.lnot (Z.shiftl Z80_DRV_STAT_PLAYING channel))) ;;
  Z80_releaseBus.

(** ** Z80_DRIVER_4PCM_ENV *)

Definition SND_isPlaying_4PCM_ENV (channel_mask : Z) : M Z :=
  Z80_loadDriver Z80_DRIVER_4PCM_ENV 1 ;;
  Z80_requestBus 1 ;;
  let pb := Z80_DRV_STATUS in
  v <- load8 pb ;;
  let ret_ := to_u8 (Z.land v (Z.shiftl channel_mask Z80_DRV_STAT_PLAYING_SFT)) in
  Z80_releaseBus ;;
  ret ret_.

Definition SND_startPlay_4PCM_ENV (sample len channel loop : Z) : M unit :=
  Z80_loadDriver Z80_DRIVER_4PCM_ENV 1 ;;
  Z80_requestBus 1 ;;
  let pb := Z80_DRV_STATUS in
  status <- load8 pb ;;
  let ch :=
    if channel =? SOUND_PCM_CH_AUTO
    then
      let ch := scan_busy 4 4 status 0 in
      if ch =? 4 then 0 else ch
    else channel in
  let pb := Z80_DRV_PARAMS + (ch * 4) in
  let addr := to_u32 sample in
  store8 (pb + 0) (Z.shiftr addr 8) ;;
  store8 (pb + 1) (Z.shiftr addr 16) ;;
  store8 (pb + 2) (Z.shiftr len 8) ;;
  store8 (pb + 3) (Z.shiftr len 16) ;;
  let pb := Z80_DRV_COMMAND in
  c <- load8 pb ;;
  store8 pb (Z.lor c (Z.shiftl Z80_DRV_COM_PLAY ch)) ;;
  let pb := Z80_DRV_STATUS in
  (if c_true loop
   then l <- load8 (pb + 1) ;;
        store8 (pb + 1) (Z.lor l (Z.shiftl Z80_DRV_STAT_PLAYING ch))
   else l <- load8 (pb + 1) ;;
        store8 (pb + 1) (Z.land l (Z.lnot (Z.shiftl Z80_DRV_STAT_PLAYING ch)))) ;;
  Z80_releaseBus.

Definition SND_stopPlay_4PCM_ENV (channel : Z) : M unit :=
  Z80_loadDriver Z80_DRIVER_4PCM_ENV 1 ;;
  Z80_requestBus 1 ;;
  let pb := Z80_DRV_PARAMS + 0x10 + (channel * 4) in
  let addr := to_u32 smp_null in
  store8 (pb + 0) (Z.shiftr addr 8) ;;
  store8 (pb + 1) (Z.shiftr addr 16) ;;
  store8 (pb + 2) (Z.shiftr sizeof_smp_null 8) ;;
  store8 (pb + 3) (Z.shiftr sizeof_smp_null 16) ;;
  let pb := Z80_DRV_STATUS in
  p <- load8 (pb + 0) ;;
  store8 (pb + 0) (Z.land p (Z.lnot (Z.shiftl Z80_DRV_STAT_PLAYING channel))) ;;
  l <- load8 (pb + 1) ;;
  store8 (pb + 1) (Z.land l (Z.lnot (Z.shiftl Z80_DRV_STAT_PLAYING channel))) ;;
  Z80_releaseBus.

Definition SND_setVolume_4PCM_ENV (channel volume : Z) : M unit :=
  Z80_loadDriver Z80_DRIVER_4PCM_ENV 1 ;;
  Z80_requestBus 1 ;;
  let pb := (Z80_DRV_PARAMS + 0x20) + channel in
  store8 pb (Z.land volume 0x0F) ;;
  Z80_releaseBus.

Definition SND_getVolume_4PCM_ENV (channel : Z) : M Z :=
  Z80_loadDriver Z80_DRIVER_4PCM_ENV 1 ;;
  Z80_requestBus 1 ;;
  let pb := (Z80_DRV_PARAMS + 0x20) + channel in
  v <- load8 pb ;;
  let volume := to_u8 (Z.land v 0x0F) in
  Z80_releaseBus ;;
  ret volume.

(** ** Z80_DRIVER_MVS *)

Definition SND_isPlaying_MVS : M Z :=
  Z80_loadDriver Z80_DRIVER_MVS 0 ;;
  Z80_requestBus 1 ;;
  let pb := 0xA0151D in
  v <- load8 pb ;;
  let ret_ := to_u8 (Z.land v 3) in
  Z80_releaseBus ;;
  ret ret_.

Definition SND_startPlay_MVS (song loop : Z) : M unit :=
  Z80_loadDriver Z80_DRIVER_MVS 0 ;;
  Z80_requestBus 1 ;;
  let addr := to_u32 song in
  let pb := 0xA0151A in
  store8 (pb + 0x00) (Z.shiftr addr 0) ;;
  store8 (pb + 0x01) (Z.shiftr addr 8) ;;
  store8 (pb + 0x02) (Z.shiftr addr 16) ;;
  (if c_true loop
   then store8 (pb + 0x03) SOUND_MVS_LOOP
   else store8 (pb + 0x03) SOUND_MVS_ONCE) ;;
  Z80_releaseBus.

Definition SND_stopPlay_MVS : M unit :=
  Z80_loadDriver Z80_DRIVER_MVS 0 ;;
  Z80_requestBus 1 ;;
  let pb := 0xA0151D in
  store8 pb SOUND_MVS_SILENCE ;;
  Z80_releaseBus.

(** ** Z80_DRIVER_TFM *)

Definition SND_startPlay_TFM (song : Z) : M unit :=
  Z80_requestBus 1 ;;
  let addr := to_u32 song in
  let pb := 0xA01FFC in
  store8 (pb + 0x00) (Z.shiftr addr 0) ;;
  store8 (pb + 0x01) (Z.shiftr addr 8) ;;
  store8 (pb + 0x02) (Z.shiftr addr 16) ;;
  store8 (pb + 0x00) (Z.shiftr addr 24) ;;
  Z80_releaseBus ;;
  Z80_loadDriver Z80_DRIVER_TFM 0 ;;
  Z80_startReset ;;
  Z80_endReset.

(** ** The operations as one family *)

(** The four sample drivers (the PCM family). *)
Inductive pcm_variant : Type := PCM | ADPCM2 | PCM4 | PCM4_ENV.

(** Number of channels and boundary shift of a sample driver, as the
    literals of its functions have them. *)
Definition channels (v : pcm_variant) : Z :=
  match v with PCM => 1 | ADPCM2 => 2 | PCM4 | PCM4_ENV => 4 end.

Definition boundary_shift (v : pcm_variant) : Z :=
  match v with ADPCM2 => 7 | PCM | PCM4 | PCM4_ENV => 8 end.

Definition startPlay (v : pcm_variant) (sample len channel rate pan loop : Z)
  : M unit :=
  match v with
  | PCM => SND_startPlay_PCM sample len rate pan loop
  | ADPCM2 => SND_startPlay_2ADPCM sample len channel loop
  | PCM4 => SND_startPlay_4PCM sample len channel loop
  | PCM4_ENV => SND_startPlay_4PCM_ENV sample len channel loop
  end.

Definition stopPlay (v : pcm_variant) (channel : Z) : M unit :=
  match v with
  | PCM => SND_stopPlay_PCM
  | ADPCM2 => SND_stopPlay_2ADPCM channel
  | PCM4 => SND_stopPlay_4PCM channel
  | PCM4_ENV => SND_stopPlay_4PCM_ENV channel
  end.

(** The channel [startPlay] works on: the one its scan or its caller
    chooses ([ch] in the source); the single channel driver has only
    channel 0. *)
Definition selected_channel (v : pcm_variant) (status channel : Z) : Z :=
  match v with
  | PCM => 0
  | _ =>
      if channel =? SOUND_PCM_CH_AUTO
      then
        let ch := scan_busy (Z.to_nat (channels v)) (channels v) status 0 in
        if ch =? channels v then 0 else ch
      else channel
  end.

(** Every public function of sound.c with its arguments. *)
Inductive call : Type :=
| Call_isPlaying_PCM
| Call_startPlay_PCM (sample len rate pan loop : Z)
| Call_stopPlay_PCM
| Call_isPlaying_2ADPCM (channel_mask : Z)
| Call_startPlay_2ADPCM (sample len channel loop : Z)
| Call_stopPlay_2ADPCM (channel : Z)
| Call_isPlaying_4PCM (channel_mask : Z)
| Call_startPlay_4PCM (sample len channel loop : Z)
| Call_stopPlay_4PCM (channel : Z)
| Call_isPlaying_4PCM_ENV (channel_mask : Z)
| Call_startPlay_4PCM_ENV (sample len channel loop : Z)
| Call_stopPlay_4PCM_ENV (channel : Z)
| Call_setVolume_4PCM_ENV (channel volume : Z)
| Call_getVolume_4PCM_ENV (channel : Z)
| Call_isPlaying_MVS
| Call_startPlay_MVS (song loop : Z)
| Call_stopPlay_MVS
| Call_startPlay_TFM (song : Z).

Definition discard {A : Type} (c : M A) : M unit := _ <- c ;; ret tt.

Definition run (c : call) : M unit :=
  match c with
  | Call_isPlaying_PCM => discard SND_isPlaying_PCM
  | Call_startPlay_PCM s l r p lp => SND_startPlay_PCM s l r p lp
  | Call_stopPlay_PCM => SND_stopPlay_PCM
  | Call_isPlaying_2ADPCM k => discard (SND_isPlaying_2ADPCM k)
  | Call_startPlay_2ADPCM s l ch lp => SND_startPlay_2ADPCM s l ch lp
  | Call_stopPlay_2ADPCM ch => SND_stopPlay_2ADPCM ch
  | Call_isPlaying_4PCM k => discard (SND_isPlaying_4PCM k)
  | Call_startPlay_4PCM s l ch lp => SND_startPlay_4PCM s l ch lp
  | Call_stopPlay_4PCM ch => SND_stopPlay_4PCM ch
  | Call_isPlaying_4PCM_ENV k => discard (SND_isPlaying_4PCM_ENV k)
  | Call_startPlay_4PCM_ENV s l ch lp => SND_startPlay_4PCM_ENV s l ch lp
  | Call_stopPlay_4PCM_ENV ch => SND_stopPlay_4PCM_ENV ch
  | Call_setVolume_4PCM_ENV ch vol => SND_setVolume_4PCM_ENV ch vol
  | Call_getVolume_4PCM_ENV ch => discard (SND_getVolume_4PCM_ENV ch)
  | Call_isPlaying_MVS => discard SND_isPlaying_MVS
  | Call_startPlay_MVS s lp => SND_startPlay_MVS s lp
  | Call_stopPlay_MVS => SND_stopPlay_MVS
  | Call_startPlay_TFM s => SND_startPlay_TFM s
  end.

(** The driver a function belongs to. *)
Definition driver_of (c : call) : driver :=
  match c with
  | Call_isPlaying_PCM | Call_startPlay_PCM _ _ _ _ _ | Call_stopPlay_PCM =>
      Z80_DRIVER_PCM
  | Call_isPlaying_2ADPCM _ | Call_startPlay_2ADPCM _ _ _ _
  | Call_stopPlay_2ADPCM _ => Z80_DRIVER_2ADPCM
  | Call_isPlaying_4PCM _ | Call_startPlay_4PCM _ _ _ _
  | Call_stopPlay_4PCM _ => Z80_DRIVER_4PCM
  | Call_isPlaying_4PCM_ENV _ | Call_startPlay_4PCM_ENV _ _ _ _
  | Call_stopPlay_4PCM_ENV _ | Call_setVolume_4PCM_ENV _ _
  | Call_getVolume_4PCM_ENV _ => Z80_DRIVER_4PCM_ENV
  | Call_isPlaying_MVS | Call_startPlay_MVS _ _ | Call_stopPlay_MVS =>
      Z80_DRIVER_MVS
  | Call_startPlay_TFM _ => Z80_DRIVER_TFM
  end.

(** The events of one computation: what it appends to an empty trace. *)
Definition events {A : Type} (c : M A) (st : machine) : list event :=
  trace (exec c (mkMachine (mem st) (loaded st) (bus st) [])).

Definition events_of (c : call) (st : machine) : list event :=
  events (run c) st.

(** Whether a list of events has a write to address [a]. *)
Definition writes_to (a : Z) (tr : list event) : bool :=
  existsb (fun e => match e with EvWrite a' _ => a' =? a | _ => false end) tr.

(** The writes of a list of events, in order. *)
Definition writes_of (tr : list event) : list (Z * Z) :=
  flat_map (fun e => match e with EvWrite a v => [(a, v)] | _ => [] end) tr.

Definition is_access (e : event) : bool :=
  match e with EvRead _ _ | EvWrite _ _ => true | _ => false end.

(** The fixed order: the loader for driver [d], then the bus request, then
    byte reads and writes only, then the bus release as the last event. *)
Definition follows_protocol (d : driver) (tr : list event) : bool :=
  match tr with
  | EvLoadDriver d' _ :: EvRequestBus _ :: rest =>
      driver_eqb d d' &&
      match rev rest with
      | EvReleaseBus :: accesses => forallb is_access accesses
      | _ => false
      end
  | _ => false
  end.

(** ** The parameters block as section 4.1 of the spec words it *)

(** The four bytes for address [A] and length [L] under boundary shift [s]. *)
Definition encode_params (s A L : Z) : list Z :=
  [ Z.land (Z.shiftr A s) 0xFF; Z.land (Z.shiftr A (s + 8)) 0xFF;
    Z.land (Z.shiftr L s) 0xFF; Z.land (Z.shiftr L (s + 8)) 0xFF ].

(** Reading two parameter bytes back as one 16 bit value, low byte first. *)
Definition decode16 (b0 b1 : Z) : Z := Z.lor b0 (Z.shiftl b1 8).

(** The four bytes a block of parameters holds in memory [m]. *)
Definition read_params (m : memory) (pb : Z) : list Z :=
  [ m (pb + 0); m (pb + 1); m (pb + 2); m (pb + 3) ].

(** Where the functions point [pb] for channel [ch]: [startPlay] at the
    base parameters, [stopPlay] at the internal parameters. *)
Definition base_params (ch : Z) : Z := Z80_DRV_PARAMS + (ch * 4).
Definition internal_params (ch : Z) : Z := Z80_DRV_PARAMS + 0x10 + (ch * 4).

(** The null sample [stopPlay] names for each driver: address and size. *)
Definition null_sample (v : pcm_variant) : Z * Z :=
  match v with
  | ADPCM2 => (smp_null_pcm, sizeof_smp_null_pcm)
  | PCM | PCM4 | PCM4_ENV => (smp_null, sizeof_smp_null)
  end.

(** ** What the code leaves in memory, as chains of updates

    The lemmas [startPlay_mem] and [stopPlay_mem] below prove that these
    are the memories the code computes. *)
Definition startPlay_effect (v : pcm_variant)
    (ch sample len rate pan loop : Z) (m : memory) : memory :=
  let s := boundary_shift v in
  let pb := match v with PCM => Z80_DRV_PARAMS | _ => base_params ch end in
  let addr := to_u32 sample in
  let m1 :=
    upd (upd (upd (upd m (pb + 0) (to_u8 (Z.shiftr addr s)))
                        (pb + 1) (to_u8 (Z.shiftr addr (s + 8))))
                        (pb + 2) (to_u8 (Z.shiftr len s)))
                        (pb + 3) (to_u8 (Z.shiftr len (s + 8))) in
  let m2 :=
    match v with
    | PCM => upd (upd m1 (pb + 4) (to_u8 rate)) (pb + 6) (to_u8 pan)
    | _ => m1
    end in
  let m3 :=
    upd m2 Z80_DRV_COMMAND
      (to_u8 (Z.lor (to_u8 (m2 Z80_DRV_COMMAND)) (Z.shiftl Z80_DRV_COM_PLAY ch))) in
  let l := to_u8 (m3 (Z80_DRV_STATUS + 1)) in
  upd m3 (Z80_DRV_STATUS + 1)
    (to_u8 (if c_true loop
            then Z.lor l (Z.shiftl Z80_DRV_STAT_PLAYING ch)
            else Z.land l (Z.lnot (Z.shiftl Z80_DRV_STAT_PLAYING ch)))).

Definition stopPlay_effect (v : pcm_variant) (ch : Z) (m : memory) : memory :=
  let s := boundary_shift v in
  let pb :=
    match v with PCM => Z80_DRV_PARAMS + 0x10 | _ => internal_params ch end in
  let addr := to_u32 (fst (null_sample v)) in
  let size := snd (null_sample v) in
  let m1 :=
    upd (upd (upd (upd m (pb + 0) (to_u8 (Z.shiftr addr s)))
                        (pb + 1) (to_u8 (Z.shiftr addr (s + 8))))
                        (pb + 2) (to_u8 (Z.shiftr size s)))
                        (pb + 3) (to_u8 (Z.shiftr size (s + 8))) in
  let bit := Z.shiftl Z80_DRV_STAT_PLAYING ch in
  let m2 :=
    upd m1 (Z80_DRV_STATUS + 0)
      (to_u8 (Z.land (to_u8 (m1 (Z80_DRV_STATUS + 0))) (Z.lnot bit))) in
  upd m2 (Z80_DRV_STATUS + 1)
    (to_u8 (Z.land (to_u8 (m2 (Z80_DRV_STATUS + 1))) (Z.lnot bit))).

(** The order of [SND_startPlay_TFM]: the bus request, byte reads and
    writes only, the bus release, and only then the loader for the TFM
    driver and the reset of the Z80. *)
Definition loads_after_release (tr : list event) : bool :=
  match tr with
  | EvRequestBus _ :: rest =>
      match rev rest with
      | EvEndReset :: EvStartReset :: EvLoadDriver Z80_DRIVER_TFM _
        :: EvReleaseBus :: accesses => forallb is_access accesses
      | _ => false
      end
  | _ => false
  end.

(** ** The status queries as one family *)

Definition isPlaying (v : pcm_variant) (channel_mask : Z) : M Z :=
  match v with
  | PCM => SND_isPlaying_PCM
  | ADPCM2 => SND_isPlaying_2ADPCM channel_mask
  | PCM4 => SND_isPlaying_4PCM channel_mask
  | PCM4_ENV => SND_isPlaying_4PCM_ENV channel_mask
  end.

(** The mask [isPlaying] tests the status byte with: the single channel
    driver tests [Z80_DRV_STAT_PLAYING], the others their argument. *)
Definition tested_mask (v : pcm_variant) (channel_mask : Z) : Z :=
  match v with
  | PCM => Z80_DRV_STAT_PLAYING
  | _ => Z.shiftl channel_mask Z80_DRV_STAT_PLAYING_SFT
  end.

(** The functions that return a value: the play states and the volume. *)
Definition is_query (c : call) : bool :=
  match c with
  | Call_isPlaying_PCM | Call_isPlaying_2ADPCM _ | Call_isPlaying_4PCM _
  | Call_isPlaying_4PCM_ENV _ | Call_getVolume_4PCM_ENV _
  | Call_isPlaying_MVS => true
  | _ => false
  end.

(** Reading three bytes back as one 24 bit value, low byte first. *)
Definition decode24 (b0 b1 b2 : Z) : Z :=
  Z.lor b0 (Z.lor (Z.shiftl b1 8) (Z.shiftl b2 16)).

End Drivers.

(** ** A window to run the functions on *)

(** Header values that satisfy [layout_ok]: the command byte, the status
    bytes and the parameters at increasing addresses of the Z80 RAM. *)
Definition window : headers :=
  mkHeaders 0xA00100 0xA00102 0xA00104 0x80 0x1200 0x100 0x1300 0x80 0 1 2.

(** A machine whose memory holds [v] in every byte, with nothing loaded,
    the bus free and no event yet. *)
Definition machine_of (v : Z) : machine :=
  mkMachine (fun _ => v) None false [].

End Z80.

(** * SoundUtil.java: raw sample data from a WAV file *)

Module SoundUtil.

(** Java [int]: 32 bits, two's complement. *)
Definition jint (x : Z) : Z := (x + 2147483648) mod 4294967296 - 2147483648.

Inductive Encoding : Type := PCM_SIGNED | PCM_UNSIGNED.

(** [javax.sound.sampled.AudioFormat], with the fields its constructor
    takes.  Rates are kept as the [int] the code passes or casts to. *)
Record AudioFormat : Type := mkAudioFormat {
  encoding : Encoding;
  sampleRate : Z;
  sampleSizeInBits : Z;
  getChannels : Z;
  frameSize : Z;
  frameRate : Z;
  isBigEndian : bool
}.

(** What one call [read(result, off, 256)] on the converted stream gives:
    some bytes, or an I/O error.  A stream is the list of what its
    successive reads give; once the list is used up the stream is at its
    end and [read] returns -1. *)
Inductive read_outcome : Type :=
| ReadBytes (bs : list byte)
| ReadFails.

Definition stream : Type := list read_outcome.

Inductive open_outcome : Type :=
| Opened (format : AudioFormat)
| OpenUnsupported (message : string)
| OpenFails.

(** What a call of [close()] on a stream does: it returns, or it throws
    [IOException]. *)
Inductive close_outcome : Type :=
| Closed
| CloseFails.

(** The platform behind [javax.sound.sampled.AudioSystem] and behind the
    streams it gives: how the file opens, which conversions are supported,
    what the converted stream gives, and what [close()] does on the
    converted stream and on the stream of the file. *)
Record platform : Type := mkPlatform {
  getAudioInputStream_file : string -> open_outcome;
  isConversionSupported : AudioFormat -> AudioFormat -> bool;
  getAudioInputStream_format : AudioFormat -> string -> stream;
  resampledInput_close : close_outcome;
  wavInput_close : close_outcome
}.

Inductive exn : Type :=
| UnsupportedAudioFileException (message : string)
| IOException
| IndexOutOfBoundsException.

Inductive outcome (A : Type) : Type :=
| Returned (a : A)
| Thrown (e : exn).
Arguments Returned {A} a.
Arguments Thrown {A} e.

(** What the method does to the platform, in order.  The two last ones are
    the calls of [close()], whatever their outcome. *)
Inductive action : Type :=
| ActOpenFile (wavPath : string)
| ActQueryConversion (dst src : AudioFormat)
| ActOpenConverted (dst : AudioFormat)
| ActRead (off : Z)
| ActCloseResampled
| ActCloseWav.

(** The array [result] has 128 MB. *)
Definition result_length : Z := 128 * 1024 * 1024.

(** The bytes a stream gives up to its first read that is not positive. *)
Fixpoint delivered (input : stream) : list byte :=
  match input with
  | ReadBytes bs :: rest =>
      if 0 <? Z.of_nat (List.length bs) then bs ++ delivered rest else []
  | _ => []
  end.

(** Whether no read fails up to the first read that is not positive. *)
Fixpoint reads_succeed (input : stream) : bool :=
  match input with
  | [] => true
  | ReadFails :: _ => false
  | ReadBytes bs :: rest =>
      if 0 <? Z.of_nat (List.length bs) then reads_succeed rest else true
  end.

Section Methods.

Variable P : platform.

(** The target format [resample] defines. *)
Definition target_format (audioInputFormat : AudioFormat)
    (bits rate : Z) (mono signed bigEndian : bool) : AudioFormat :=
  let channel := if mono then 1 else getChannels audioInputFormat in
  let adjRate := if rate <=? 0 then sampleRate audioInputFormat else rate in
  mkAudioFormat (if signed then PCM_SIGNED else PCM_UNSIGNED) adjRate bits
    channel (jint (Z.quot (jint (bits + 7)) 8 * channel)) adjRate bigEndian.

(** [resample]: [None] is the [null] it returns when the conversion is not
    supported, otherwise the destination format and the converted stream. *)
Definition resample (wavPath : string) (audioInputFormat : AudioFormat)
    (bits rate : Z) (mono signed bigEndian : bool)
  : option (AudioFormat * stream) * list action :=
  let dstFormat :=
    target_format audioInputFormat bits rate mono signed bigEndian in
  if negb (isConversionSupported P dstFormat audioInputFormat)
  then (None, [ActQueryConversion dstFormat audioInputFormat])
  else (Some (dstFormat, getAudioInputStream_format P dstFormat wavPath),
        [ActQueryConversion dstFormat audioInputFormat;
         ActOpenConverted dstFormat]).

(** The [do ... while (read > 0)] loop.  [data] is [result[0..off)];
    [read] raises [IndexOutOfBoundsException] when [off + 256] exceeds the
    array.  It gives the bytes read, or the exception that ends it, and
    its reads. *)
Fixpoint read_all (input : stream) (data : list byte) (off : Z)
  : outcome (list byte) * list action :=
  if result_length - off <? 256
  then (Thrown IndexOutOfBoundsException, [ActRead off])
  else
    match input with
    | [] => (Returned data, [ActRead off])
    | ReadFails :: _ => (Thrown IOException, [ActRead off])
    | ReadBytes bs :: rest =>
        let read := Z.of_nat (List.length bs) in
        if 0 <? read
        then
          let (r, acts) := read_all rest (data ++ bs) (off + read) in
          (r, ActRead off :: acts)
        else (Returned data, [ActRead off])
    end.

(** The block [finally { resampledInput.close(); wavInput.close(); }]
    entered with the outcome of the [try] block: a [close()] that throws
    ends the block with its [IOException] in place of that outcome, and the
    first one that throws leaves the second one uncalled. *)
Definition finally_close (body : outcome (list byte))
  : outcome (list byte) * list action :=
  match resampledInput_close P with
  | CloseFails => (Thrown IOException, [ActCloseResampled])
  | Closed =>
      match wavInput_close P with
      | CloseFails => (Thrown IOException, [ActCloseResampled; ActCloseWav])
      | Closed => (body, [ActCloseResampled; ActCloseWav])
      end
  end.

Definition getRawDataFromWAV (wavPath : string) (bits rate : Z)
    (mono signed bigEndian : bool)
  : outcome (list byte) * list action :=
  match getAudioInputStream_file P wavPath with
  | OpenUnsupported message =>
      (Thrown (UnsupportedAudioFileException message), [ActOpenFile wavPath])
  | OpenFails => (Thrown IOException, [ActOpenFile wavPath])
  | Opened wavFormat =>
      let (resampledInput, acts) :=
        resample wavPath wavFormat bits rate mono signed bigEndian in
      match resampledInput with
      | None =>
          match wavInput_close P with
          | CloseFails =>
              (Thrown IOException,
               ActOpenFile wavPath :: acts ++ [ActCloseWav])
          | Closed =>
              (Thrown (UnsupportedAudioFileException
                         ("Error: couldn't resample '" ++ wavPath
                          ++ "' WAV file.")%string),
               ActOpenFile wavPath :: acts ++ [ActCloseWav])
          end
      | Some (_, input) =>
          let (r, reads) := read_all input [] 0 in
          let (r', closes) := finally_close r in
          (r', ActOpenFile wavPath :: acts ++ reads ++ closes)
      end
  end.

End Methods.

(** ** Platforms to run the method on *)

Definition cd_format : AudioFormat :=
  mkAudioFormat PCM_SIGNED 44100 16 2 4 44100 false.

(** A platform that opens every file as CD audio, supports every
    conversion when [supported] holds and none otherwise, whose converted
    stream gives [reads], and whose [close()] calls return. *)
Definition platform_of (supported : bool) (reads : stream) : platform :=
  mkPlatform (fun _ => Opened cd_format) (fun _ _ => supported)
             (fun _ _ => reads) Closed Closed.

(** The same platform with the outcomes of the two [close()] given. *)
Definition platform_closing (supported : bool) (reads : stream)
    (resampled_close wav_close : close_outcome) : platform :=
  mkPlatform (fun _ => Opened cd_format) (fun _ _ => supported)
             (fun _ _ => reads) resampled_close wav_close.

(** A stream of 524289 reads of 256 bytes: 256 bytes more than the 128 MB
    of [result]. *)
Definition chunk_256 : list byte := repeat x00 256.

Definition oversized : stream :=
  repeat (ReadBytes chunk_256) (Z.to_nat 524289).

Definition two_chunks : stream :=
  [ReadBytes [x01; x02; x03]; ReadBytes [x04; x05]].

End SoundUtil.


(** * fractal.c: the mute flags of a music channel and the block copy *)

Module Fractal.

Import Z80.

(** The two flag numbers of fractal.h that fractal.c names. *)
Class flag_numbers : Type := mkFlagNumbers {
  Fractal_ModeFlag_Muted : Z;
  Fractal_TrackFlag_VolumeUpdate : Z
}.

(** The two fields of [Fractal_ChannelMusic] the functions touch.  The
    structure is declared in fractal.h; the fields are taken as bytes, as
    the [u8] that [Fractal_IsMuted] returns of one of them has it. *)
Record Fractal_ChannelMusic : Type := mkChannelMusic {
  trackFlags : Z;
  modeFlags : Z
}.

Section Flags.

Context {F : flag_numbers}.

Definition Fractal_IsMuted (channel : Fractal_ChannelMusic) : Z :=
  to_u8 (Z.land (modeFlags channel) (Z.shiftl 1 Fractal_ModeFlag_Muted)).

Definition Fractal_ToggleMute (channel : Fractal_ChannelMusic)
  : Fractal_ChannelMusic :=
  let channel :=
    mkChannelMusic
      (to_u8 (Z.lor (trackFlags channel)
                    (Z.shiftl 1 Fractal_TrackFlag_VolumeUpdate)))
      (modeFlags channel) in
  mkChannelMusic
    (trackFlags channel)
    (to_u8 (Z.lxor (modeFlags channel) (Z.shiftl 1 Fractal_ModeFlag_Muted))).

Definition Fractal_Mute (channel : Fractal_ChannelMusic)
  : Fractal_ChannelMusic :=
  let channel :=
    mkChannelMusic
      (to_u8 (Z.lor (trackFlags channel)
                    (Z.shiftl 1 Fractal_TrackFlag_VolumeUpdate)))
      (modeFlags channel) in
  mkChannelMusic
    (trackFlags channel)
    (to_u8 (Z.lor (modeFlags channel) (Z.shiftl 1 Fractal_ModeFlag_Muted))).

Definition Fractal_Unmute (channel : Fractal_ChannelMusic)
  : Fractal_ChannelMusic :=
  let channel :=
    mkChannelMusic
      (to_u8 (Z.lor (trackFlags channel)
                    (Z.shiftl 1 Fractal_TrackFlag_VolumeUpdate)))
      (modeFlags channel) in
  mkChannelMusic
    (trackFlags channel)
    (to_u8 (Z.land (modeFlags channel)
                   (Z.lnot (Z.shiftl 1 Fractal_ModeFlag_Muted)))).

End Flags.

(** A channel whose two fields are proper bytes. *)
Definition byte_fields (channel : Fractal_ChannelMusic) : Prop :=
  0 <= trackFlags channel < 256 /\ 0 <= modeFlags channel < 256.

(** Flag numbers to run the functions on. *)
Definition sample_flags : flag_numbers := mkFlagNumbers 5 2.

(** ** [Fractal_Decompress]

    The 68000 instructions of its [asm] block, on the word in [d0] and the
    two address registers:
    [subq.w #1,d0] takes 1 off the word and sets N from its bit 15;
    [bmi.s done] leaves when N is set;
    [move.b (a1)+,(a2)+] copies one byte and steps both addresses;
    [dbf d0,next] takes 1 off the word and loops unless it became 0xFFFF.
    The word at [source] is read high byte first, as the 68000 does. *)

(** [next: move.b (%1)+,(%2)+ ; dbf %0,next], one unit of fuel per turn.
    The word in [d0] comes back to 0xFFFF within 65536 turns from any
    value, so the function gives the loop 65536 units. *)
Fixpoint copy_bytes (fuel : nat) (m : memory) (d0 a1 a2 : Z) : memory :=
  match fuel with
  | O => m
  | S fuel' =>
      let m' := upd m a2 (to_u8 (m a1)) in
      let d0' := to_u16 (d0 - 1) in
      if d0' =? 0xFFFF then m' else copy_bytes fuel' m' d0' (a1 + 1) (a2 + 1)
  end.

Definition Fractal_Decompress (m : memory) (source destination : Z) : memory :=
  let counter := to_u8 (m source) * 256 + to_u8 (m (source + 1)) in
  let source := source + 2 in
  let d0 := to_u16 (counter - 1) in
  if Z.testbit d0 15
  then m
  else copy_bytes (Z.to_nat 65536) m d0 source destination.

(** A memory that holds at [a] the byte of [bytes] of that rank, and 0
    outside [0 .. length bytes). *)
Definition memory_of (bytes : list Z) : memory :=
  fun a => if a <? 0 then 0 else nth (Z.to_nat a) bytes 0.

End Fractal.

(** * Properties of the register protocol *)

Import Z80.

(** ** Bytes and bits *)

Lemma to_u8_range (x : Z) : 0 <= to_u8 x < 256.
Proof. unfold to_u8. apply Z.mod_pos_bound. lia. Qed.

Lemma to_u8_small (x : Z) : 0 <= x < 256 -> to_u8 x = x.
Proof. intros Hx. unfold to_u8. apply Z.mod_small. exact Hx. Qed.

Lemma to_u8_land (x : Z) : to_u8 x = Z.land x 0xFF.
Proof.
  unfold to_u8. change 0xFF with (Z.ones 8). rewrite Z.land_ones by lia.
  reflexivity.
Qed.

Lemma to_u32_small (x : Z) : 0 <= x < 4294967296 -> to_u32 x = x.
Proof. intros Hx. unfold to_u32. apply Z.mod_small. exact Hx. Qed.

Lemma testbit_to_u8 (x i : Z) :
  Z.testbit (to_u8 x) i = (i <? 8) && Z.testbit x i.
Proof.
  unfold to_u8. change 256 with (2 ^ 8).
  destruct (Z.ltb_spec i 8) as [Hi | Hi]; cbn [andb].
  - destruct (Z.ltb_spec i 0) as [Hn | Hn].
    + rewrite !Z.testbit_neg_r by lia. reflexivity.
    + apply Z.mod_pow2_bits_low. lia.
  - apply Z.mod_pow2_bits_high. lia.
Qed.

Lemma testbit_channel_bit (c i : Z) :
  0 <= c -> Z.testbit (Z.shiftl 1 c) i = (c =? i).
Proof.
  intros Hc. rewrite Z.shiftl_1_l. apply Z.pow2_bits_eqb. exact Hc.
Qed.

(** Setting bit [c] of a byte. *)
Lemma testbit_set (x c i : Z) :
  0 <= c -> 0 <= i < 8 ->
  Z.testbit (to_u8 (Z.lor (to_u8 x) (Z.shiftl 1 c))) i
  = Z.testbit x i || (c =? i).
Proof.
  intros Hc Hi.
  rewrite testbit_to_u8, Z.lor_spec, testbit_to_u8, testbit_channel_bit by lia.
  destruct (Z.ltb_spec i 8); [reflexivity | lia].
Qed.

(** Clearing bit [c] of a byte. *)
Lemma testbit_clear (x c i : Z) :
  0 <= c -> 0 <= i < 8 ->
  Z.testbit (to_u8 (Z.land (to_u8 x) (Z.lnot (Z.shiftl 1 c)))) i
  = Z.testbit x i && negb (c =? i).
Proof.
  intros Hc Hi.
  rewrite testbit_to_u8, Z.land_spec, testbit_to_u8, Z.lnot_spec,
    testbit_channel_bit by lia.
  destruct (Z.ltb_spec i 8); [reflexivity | lia].
Qed.

(** Two bytes put back together give the 16 bits they were cut from. *)
Lemma decode16_bytes (x : Z) :
  0 <= x < 65536 ->
  decode16 (Z.land x 0xFF) (Z.land (Z.shiftr x 8) 0xFF) = x.
Proof.
  intros Hx. unfold decode16. apply Z.bits_inj'. intros i Hi.
  rewrite Z.lor_spec, Z.shiftl_spec, !Z.land_spec by lia.
  change 0xFF with (Z.ones 8).
  destruct (Z.ltb_spec i 8) as [Hlt | Hge].
  - rewrite Z.ones_spec_low by lia.
    rewrite (Z.testbit_neg_r _ (i - 8)) by lia.
    rewrite andb_true_r, orb_false_r. reflexivity.
  - rewrite Z.ones_spec_high by lia. rewrite andb_false_r, orb_false_l.
    rewrite Z.shiftr_spec by lia. replace (i - 8 + 8) with i by lia.
    destruct (Z.ltb_spec i 16) as [Hlt' | Hge'].
    + rewrite Z.ones_spec_low by lia. apply andb_true_r.
    + rewrite Z.ones_spec_high by lia. rewrite andb_false_r.
      symmetry. apply Z.bits_above_log2; [lia |].
      destruct (Z.eq_dec x 0) as [-> | Hnz]; [simpl; lia |].
      apply Z.lt_le_trans with 16; [| lia].
      apply Z.log2_lt_pow2; lia.
Qed.

Lemma shiftr_shiftr_8 (x s : Z) :
  0 <= s -> Z.shiftr x (s + 8) = Z.shiftr (Z.shiftr x s) 8.
Proof. intros Hs. rewrite Z.shiftr_shiftr by lia. reflexivity. Qed.

(** ** Memory cells *)

Lemma upd_same (m : memory) (a v : Z) : upd m a v a = v.
Proof. unfold upd. rewrite Z.eqb_refl. reflexivity. Qed.

Lemma upd_at (m : memory) (a v x : Z) : x = a -> upd m a v x = v.
Proof. intros ->. apply upd_same. Qed.

Lemma upd_other (m : memory) (a v x : Z) : x <> a -> upd m a v x = m x.
Proof.
  intros Hx. unfold upd. destruct (Z.eqb_spec x a); [contradiction | reflexivity].
Qed.

(** Unfolds a function of sound.c down to the chain of memory updates and
    the list of events it leaves. *)
Ltac run_code :=
  cbv [startPlay stopPlay run discard events_of events
       SND_isPlaying_PCM SND_startPlay_PCM SND_stopPlay_PCM
       SND_isPlaying_2ADPCM SND_startPlay_2ADPCM SND_stopPlay_2ADPCM
       SND_isPlaying_4PCM SND_startPlay_4PCM SND_stopPlay_4PCM
       SND_isPlaying_4PCM_ENV SND_startPlay_4PCM_ENV SND_stopPlay_4PCM_ENV
       SND_setVolume_4PCM_ENV SND_getVolume_4PCM_ENV
       SND_isPlaying_MVS SND_startPlay_MVS SND_stopPlay_MVS SND_startPlay_TFM
       exec eval bind ret load8 store8 emit
       Z80_loadDriver Z80_requestBus Z80_releaseBus Z80_startReset Z80_endReset
       mem loaded bus trace fst snd].

(** Settles which cell of a chain of updates an address reads. *)
Ltac mem_cells :=
  repeat match goal with
    | |- context [upd ?m ?a ?v ?x] =>
        first [ rewrite (upd_at m a v x) by lia
              | rewrite (upd_other m a v x) by lia ]
    end.

(** Settles the address tests left when a trace is searched for a write. *)
Ltac address_tests :=
  repeat match goal with
    | |- context [?a =? ?b] =>
        replace (a =? b) with false by (symmetry; apply Z.eqb_neq; lia)
    end.

Section Protocol.

Context {H : headers}.

(** The memory [startPlay] leaves is [startPlay_effect] at the channel the
    code selects from the status byte it reads. *)
Lemma startPlay_mem (v : pcm_variant) (st : machine)
    (sample len channel rate pan loop : Z) :
  mem (exec (startPlay v sample len channel rate pan loop) st)
  = startPlay_effect v
      (selected_channel v (to_u8 (mem st Z80_DRV_STATUS)) channel)
      sample len rate pan loop (mem st).
Proof.
  destruct st as [m ld b tr].
  destruct v; run_code; destruct (c_true loop) eqn:Hloop;
    cbv [startPlay_effect]; rewrite Hloop; reflexivity.
Qed.

Lemma stopPlay_mem (v : pcm_variant) (st : machine) (channel : Z) :
  mem (exec (stopPlay v channel) st)
  = stopPlay_effect v (match v with PCM => 0 | _ => channel end) (mem st).
Proof.
  destruct st as [m ld b tr]. destruct v; reflexivity.
Qed.

(** ** The cells [startPlay] and [stopPlay] leave *)

Lemma startPlay_effect_params (v : pcm_variant)
    (ch sample len rate pan loop : Z) (m : memory) :
  layout_ok H -> 0 <= ch -> (v = PCM -> ch = 0) ->
  read_params (startPlay_effect v ch sample len rate pan loop m) (base_params ch)
  = encode_params (boundary_shift v) (to_u32 sample) len.
Proof.
  intros [Hcs Hsp] Hch Hpcm.
  unfold read_params, encode_params. rewrite <- !to_u8_land.
  destruct v; [rewrite (Hpcm eq_refl) | | |];
    cbv [startPlay_effect boundary_shift base_params];
    repeat (apply (f_equal2 cons); [mem_cells; reflexivity |]); reflexivity.
Qed.

Lemma startPlay_effect_command (v : pcm_variant)
    (ch sample len rate pan loop : Z) (m : memory) :
  layout_ok H -> 0 <= ch ->
  startPlay_effect v ch sample len rate pan loop m Z80_DRV_COMMAND
  = to_u8 (Z.lor (to_u8 (m Z80_DRV_COMMAND)) (Z.shiftl 1 ch)).
Proof.
  intros [Hcs Hsp] Hch.
  destruct v; cbv [startPlay_effect base_params Z80_DRV_COM_PLAY];
    mem_cells; reflexivity.
Qed.

Lemma startPlay_effect_status (v : pcm_variant)
    (ch sample len rate pan loop : Z) (m : memory) :
  layout_ok H -> 0 <= ch ->
  startPlay_effect v ch sample len rate pan loop m Z80_DRV_STATUS
  = m Z80_DRV_STATUS.
Proof.
  intros [Hcs Hsp] Hch.
  destruct v; cbv [startPlay_effect base_params]; mem_cells; reflexivity.
Qed.

Lemma startPlay_effect_loop (v : pcm_variant)
    (ch sample len rate pan loop : Z) (m : memory) :
  layout_ok H -> 0 <= ch ->
  startPlay_effect v ch sample len rate pan loop m (Z80_DRV_STATUS + 1)
  = to_u8 (if c_true loop
           then Z.lor (to_u8 (m (Z80_DRV_STATUS + 1))) (Z.shiftl 1 ch)
           else Z.land (to_u8 (m (Z80_DRV_STATUS + 1)))
                       (Z.lnot (Z.shiftl 1 ch))).
Proof.
  intros [Hcs Hsp] Hch.
  destruct v; cbv [startPlay_effect base_params Z80_DRV_STAT_PLAYING];
    mem_cells; reflexivity.
Qed.

Lemma stopPlay_effect_params (v : pcm_variant) (ch : Z) (m : memory) :
  layout_ok H -> 0 <= ch -> (v = PCM -> ch = 0) ->
  read_params (stopPlay_effect v ch m) (internal_params ch)
  = encode_params (boundary_shift v) (to_u32 (fst (null_sample v)))
      (snd (null_sample v)).
Proof.
  intros [Hcs Hsp] Hch Hpcm.
  unfold read_params, encode_params. rewrite <- !to_u8_land.
  destruct v; [rewrite (Hpcm eq_refl) | | |];
    cbv [stopPlay_effect boundary_shift internal_params null_sample fst snd];
    repeat (apply (f_equal2 cons); [mem_cells; reflexivity |]); reflexivity.
Qed.

Lemma stopPlay_effect_play (v : pcm_variant) (ch : Z) (m : memory) :
  layout_ok H -> 0 <= ch ->
  stopPlay_effect v ch m Z80_DRV_STATUS
  = to_u8 (Z.land (to_u8 (m Z80_DRV_STATUS)) (Z.lnot (Z.shiftl 1 ch))).
Proof.
  intros [Hcs Hsp] Hch.
  destruct v; cbv [stopPlay_effect internal_params Z80_DRV_STAT_PLAYING];
    rewrite ?Z.add_0_r; mem_cells; reflexivity.
Qed.

Lemma stopPlay_effect_loop (v : pcm_variant) (ch : Z) (m : memory) :
  layout_ok H -> 0 <= ch ->
  stopPlay_effect v ch m (Z80_DRV_STATUS + 1)
  = to_u8 (Z.land (to_u8 (m (Z80_DRV_STATUS + 1))) (Z.lnot (Z.shiftl 1 ch))).
Proof.
  intros [Hcs Hsp] Hch.
  destruct v; cbv [stopPlay_effect internal_params Z80_DRV_STAT_PLAYING];
    rewrite ?Z.add_0_r; mem_cells; reflexivity.
Qed.

(** [stopPlay] changes no byte outside the internal parameters of its
    channel and the two status bytes. *)
Lemma stopPlay_effect_frame (v : pcm_variant) (ch : Z) (m : memory) (a : Z) :
  ~ (internal_params ch <= a < internal_params ch + 4) ->
  a <> Z80_DRV_STATUS -> a <> Z80_DRV_STATUS + 1 ->
  (v = PCM -> ch = 0) ->
  stopPlay_effect v ch m a = m a.
Proof.
  intros Hblock Hplay Hloop Hpcm. unfold internal_params in Hblock.
  destruct v; [rewrite (Hpcm eq_refl) in * | | |];
    cbv [stopPlay_effect internal_params]; mem_cells; reflexivity.
Qed.

(** ** The channel scan *)

Lemma busy_test (status c : Z) :
  0 <= c ->
  c_true (Z.land status (Z.shiftl Z80_DRV_STAT_PLAYING c)) = Z.testbit status c.
Proof.
  intros Hc. unfold c_true, Z80_DRV_STAT_PLAYING.
  destruct (Z.testbit status c) eqn:Hbit.
  - destruct (Z.eqb_spec (Z.land status (Z.shiftl 1 c)) 0) as [Hz | Hz];
      [| reflexivity].
    assert (Hc' : Z.testbit (Z.land status (Z.shiftl 1 c)) c = true).
    { rewrite Z.land_spec, testbit_channel_bit, Hbit, Z.eqb_refl by lia.
      reflexivity. }
    rewrite Hz, Z.bits_0 in Hc'. discriminate.
  - replace (Z.land status (Z.shiftl 1 c)) with 0; [reflexivity |].
    symmetry. apply Z.bits_inj'. intros i Hi.
    rewrite Z.land_spec, testbit_channel_bit, Z.bits_0 by lia.
    destruct (Z.eqb_spec c i) as [-> | Hne].
    + rewrite Hbit. reflexivity.
    + apply andb_false_r.
Qed.

(** With one unit of fuel per remaining channel the scan stops by its own
    condition: every channel it passed is busy, and it stands on a free
    channel or on [n]. *)
Lemma scan_busy_spec (fuel : nat) :
  forall n status ch,
    0 <= ch <= n -> n < 65536 -> (Z.to_nat (n - ch) <= fuel)%nat ->
    let r := scan_busy fuel n status ch in
    ch <= r <= n
    /\ (forall c, ch <= c < r -> Z.testbit status c = true)
    /\ (r < n -> Z.testbit status r = false).
Proof.
  induction fuel as [| fuel IH]; intros n status ch Hch Hn Hfuel; cbn [scan_busy].
  - assert (ch = n) by lia. subst ch. repeat split; lia.
  - destruct (Z.ltb_spec ch n) as [Hlt | Hge]; cbn [andb].
    + rewrite busy_test by lia.
      destruct (Z.testbit status ch) eqn:Hbit.
      * assert (Hw : to_u16 (ch + 1) = ch + 1).
        { unfold to_u16. apply Z.mod_small. lia. }
        rewrite Hw.
        destruct (IH n status (ch + 1)) as (Hr & Hbusy & Hfree);
          [lia | lia | lia |].
        repeat split; try lia.
        -- intros c Hc. destruct (Z.eq_dec c ch) as [-> | Hne];
             [exact Hbit | apply Hbusy; lia].
        -- exact Hfree.
      * repeat split; try lia. intros _. exact Hbit.
    + repeat split; lia.
Qed.

Lemma selected_channel_auto (v : pcm_variant) (status : Z) :
  v <> PCM ->
  let ch := selected_channel v status SOUND_PCM_CH_AUTO in
  0 <= ch < channels v
  /\ (forall c, 0 <= c < ch -> Z.testbit status c = true)
  /\ (Z.testbit status ch = true ->
      ch = 0 /\ forall c, 0 <= c < channels v -> Z.testbit status c = true).
Proof.
  intros Hv.
  assert (Hn : 0 <= channels v < 65536) by (destruct v; cbn; lia).
  destruct (scan_busy_spec (Z.to_nat (channels v)) (channels v) status 0)
    as (Hr & Hbusy & Hfree); [lia | lia | lia |].
  assert (Hsel : selected_channel v status SOUND_PCM_CH_AUTO
                 = let r := scan_busy (Z.to_nat (channels v)) (channels v) status 0 in
                   if r =? channels v then 0 else r).
  { destruct v; [contradiction | | |];
      cbv [selected_channel]; rewrite Z.eqb_refl; reflexivity. }
  cbv zeta in *. rewrite Hsel.
  destruct (Z.eqb_spec (scan_busy (Z.to_nat (channels v)) (channels v) status 0)
              (channels v)) as [Hall | Hsome].
  - rewrite Hall in Hbusy.
    assert (0 < channels v) by (destruct v; cbn; lia || contradiction).
    split; [lia |]. split.
    + intros c Hc. exfalso. lia.
    + intros _. split; [reflexivity | exact Hbusy].
  - split; [lia |]. split.
    + exact Hbusy.
    + intros Hbit. rewrite Hfree in Hbit by lia. discriminate.
Qed.

(** C2. For each of the drivers with several channels (2 for 2ADPCM, 4 for
    4PCM and 4PCM_ENV) and every status byte, [startPlay] called with
    [SOUND_PCM_CH_AUTO] works on a channel [ch] of the driver that is the
    lowest channel whose playing bit is clear in the status byte, and
    channel 0 when the playing bits of all the channels are set; there is
    no failing outcome. *)
Theorem startPlay_auto_channel (v : pcm_variant) (st : machine)
    (sample len rate pan loop : Z) :
  v <> PCM ->
  let status := to_u8 (mem st Z80_DRV_STATUS) in
  let ch := selected_channel v status SOUND_PCM_CH_AUTO in
  mem (exec (startPlay v sample len SOUND_PCM_CH_AUTO rate pan loop) st)
  = startPlay_effect v ch sample len rate pan loop (mem st)
  /\ 0 <= ch < channels v
  /\ (forall c, 0 <= c < channels v ->
        Z.testbit status c = false ->
        (forall c', 0 <= c' < c -> Z.testbit status c' = true) ->
        ch = c)
  /\ ((forall c, 0 <= c < channels v -> Z.testbit status c = true) -> ch = 0).
Proof.
  intros Hv status ch.
  destruct (selected_channel_auto v status Hv) as (Hrange & Hbelow & Hbusy).
  fold ch in Hrange, Hbelow, Hbusy.
  split; [apply startPlay_mem |].
  split; [exact Hrange |].
  split.
  - intros c Hc Hfree Hlow.
    destruct (Z.lt_trichotomy ch c) as [Hlt | [Heq | Hgt]].
    + specialize (Hlow ch ltac:(lia)).
      destruct (Hbusy Hlow) as [_ Hall]. rewrite Hall in Hfree by lia.
      discriminate.
    + exact Heq.
    + rewrite Hbelow in Hfree by lia. discriminate.
  - intros Hall. apply Hbusy. apply Hall. exact Hrange.
Qed.

Lemma selected_channel_nonneg (v : pcm_variant) (status channel : Z) :
  0 <= channel -> 0 <= selected_channel v status channel.
Proof.
  intros Hc. destruct v; [cbn; lia | | |];
    (destruct (Z.eqb_spec channel SOUND_PCM_CH_AUTO) as [-> | Hne];
     [ match goal with
       | |- 0 <= selected_channel ?v _ _ =>
           apply (selected_channel_auto v status); discriminate
       end
     | cbv [selected_channel];
       destruct (Z.eqb_spec channel SOUND_PCM_CH_AUTO); [contradiction | lia] ]).
Qed.

Lemma selected_channel_explicit (v : pcm_variant) (status channel : Z) :
  0 <= channel < channels v -> channel <> SOUND_PCM_CH_AUTO ->
  selected_channel v status channel = channel.
Proof.
  intros Hc Hne. destruct v; [cbn in *; lia | | |];
    cbv [selected_channel];
    (destruct (Z.eqb_spec channel SOUND_PCM_CH_AUTO);
     [contradiction | reflexivity]).
Qed.

(** ** The claims on [startPlay] *)

(** C1. For each driver of the PCM family (boundary shift 8 for PCM, 4PCM
    and 4PCM_ENV, 7 for 2ADPCM), every sample address [A] and length [L],
    [startPlay] leaves in the parameters of the channel it works on the
    bytes [(A >> s) & 0xFF], [(A >> (s+8)) & 0xFF], [(L >> s) & 0xFF] and
    [(L >> (s+8)) & 0xFF], and reading the two pairs back as 16 bit values
    gives [A >> s] and [L >> s] whenever these fit in 16 bits.  The
    alignment of [A] and [L] is not needed for that. *)
Theorem startPlay_params_roundtrip (v : pcm_variant) (st : machine)
    (sample len channel rate pan loop : Z) :
  layout_ok H ->
  0 <= sample < 4294967296 -> 0 <= len < 4294967296 -> 0 <= channel ->
  let s := boundary_shift v in
  let ch := selected_channel v (to_u8 (mem st Z80_DRV_STATUS)) channel in
  let m' := mem (exec (startPlay v sample len channel rate pan loop) st) in
  let pb := base_params ch in
  read_params m' pb = encode_params s sample len
  /\ (Z.shiftr sample s < 65536 ->
      decode16 (m' (pb + 0)) (m' (pb + 1)) = Z.shiftr sample s)
  /\ (Z.shiftr len s < 65536 ->
      decode16 (m' (pb + 2)) (m' (pb + 3)) = Z.shiftr len s).
Proof.
  intros Hlay Hsample Hlen Hchannel s ch m' pb.
  assert (Hch : 0 <= ch) by (apply selected_channel_nonneg; exact Hchannel).
  assert (Hpcm : v = PCM -> ch = 0) by (intros ->; reflexivity).
  assert (Hs : 0 <= s) by (destruct v; cbn; lia).
  assert (Hblock : read_params m' pb = encode_params s sample len).
  { unfold m'. rewrite startPlay_mem. fold ch. unfold pb, s.
    rewrite startPlay_effect_params by assumption.
    rewrite to_u32_small by exact Hsample. reflexivity. }
  split; [exact Hblock |].
  unfold read_params, encode_params in Hblock.
  injection Hblock as H0 H1 H2 H3. rewrite H0, H1, H2, H3.
  rewrite !(shiftr_shiftr_8 _ s) by exact Hs.
  split; intros Hfit; apply decode16_bytes;
    (split; [apply Z.shiftr_nonneg; lia | exact Hfit]).
Qed.

(** C4, as the code has it.  For each driver of the PCM family, every
    channel of the driver named explicitly and every prior state of the
    window, [startPlay] leaves the command bit of that channel set and
    every other command bit as it was, so that one command bit is raised;
    it does not write the byte of the play bits, which stays as it was;
    and it sets the loop bit of the channel to the loop flag. *)
Theorem startPlay_explicit_channel (v : pcm_variant) (st : machine)
    (sample len channel rate pan loop : Z) :
  layout_ok H ->
  0 <= channel < channels v -> channel <> SOUND_PCM_CH_AUTO ->
  let m' := mem (exec (startPlay v sample len channel rate pan loop) st) in
  Z.testbit (m' Z80_DRV_COMMAND) channel = true
  /\ (forall i, 0 <= i < 8 -> i <> channel ->
        Z.testbit (m' Z80_DRV_COMMAND) i
        = Z.testbit (mem st Z80_DRV_COMMAND) i)
  /\ m' Z80_DRV_STATUS = mem st Z80_DRV_STATUS
  /\ writes_to Z80_DRV_STATUS
       (events (startPlay v sample len channel rate pan loop) st) = false
  /\ Z.testbit (m' (Z80_DRV_STATUS + 1)) channel = c_true loop.
Proof.
  intros Hlay Hchannel Hne m'.
  assert (Hn : channels v <= 4) by (destruct v; cbn; lia).
  unfold m'. rewrite startPlay_mem.
  rewrite selected_channel_explicit by assumption.
  rewrite startPlay_effect_command, startPlay_effect_status,
    startPlay_effect_loop by (assumption || lia).
  split; [| split; [| split; [reflexivity | split]]].
  - rewrite testbit_set by lia. rewrite Z.eqb_refl. apply orb_true_r.
  - intros i Hi Hic. rewrite testbit_set by lia.
    destruct (Z.eqb_spec channel i); [congruence | apply orb_false_r].
  - destruct Hlay as [Hcs Hsp]. destruct st as [m ld b tr].
    destruct v; run_code; destruct (c_true loop);
      cbn [channels] in Hchannel; cbn [app writes_to existsb];
      address_tests; reflexivity.
  - destruct (c_true loop).
    + rewrite testbit_set by lia. rewrite Z.eqb_refl. apply orb_true_r.
    + rewrite testbit_clear by lia. rewrite Z.eqb_refl. apply andb_false_r.
Qed.

(** C10. For each driver of the PCM family, [startPlay] writes to the
    command byte the bitwise OR of the byte it read there and the command
    bit of the channel it works on: every command bit that was set is
    still set after the call. *)
Theorem startPlay_command_or (v : pcm_variant) (st : machine)
    (sample len channel rate pan loop : Z) :
  layout_ok H -> 0 <= channel ->
  let ch := selected_channel v (to_u8 (mem st Z80_DRV_STATUS)) channel in
  let m' := mem (exec (startPlay v sample len channel rate pan loop) st) in
  m' Z80_DRV_COMMAND
  = to_u8 (Z.lor (to_u8 (mem st Z80_DRV_COMMAND)) (Z.shiftl Z80_DRV_COM_PLAY ch))
  /\ (forall i, 0 <= i < 8 ->
        Z.testbit (mem st Z80_DRV_COMMAND) i = true ->
        Z.testbit (m' Z80_DRV_COMMAND) i = true).
Proof.
  intros Hlay Hchannel ch m'.
  assert (Hch : 0 <= ch) by (apply selected_channel_nonneg; exact Hchannel).
  assert (Hcmd : m' Z80_DRV_COMMAND
                 = to_u8 (Z.lor (to_u8 (mem st Z80_DRV_COMMAND)) (Z.shiftl 1 ch))).
  { unfold m'. rewrite startPlay_mem. fold ch.
    apply startPlay_effect_command; assumption. }
  split; [exact Hcmd |].
  intros i Hi Hset. rewrite Hcmd, testbit_set by lia. rewrite Hset. reflexivity.
Qed.

(** ** The claims on [stopPlay] *)

(** C3. For each driver of the PCM family and every channel of the driver,
    [stopPlay] leaves the play bit and the loop bit of the channel at 0,
    leaves in the internal parameters of the channel (at
    [Z80_DRV_PARAMS + 0x10 + channel * 4]) the bytes that encode address
    and size of the null sample of the driver ([smp_null] with shift 8 for
    PCM, 4PCM and 4PCM_ENV, [smp_null_pcm] with shift 7 for 2ADPCM), and
    never writes the command byte. *)
Theorem stopPlay_null_sample (v : pcm_variant) (st : machine) (channel : Z) :
  layout_ok H -> 0 <= channel < channels v ->
  let m' := mem (exec (stopPlay v channel) st) in
  Z.testbit (m' Z80_DRV_STATUS) channel = false
  /\ Z.testbit (m' (Z80_DRV_STATUS + 1)) channel = false
  /\ read_params m' (internal_params channel)
     = encode_params (boundary_shift v) (to_u32 (fst (null_sample v)))
         (snd (null_sample v))
  /\ writes_to Z80_DRV_COMMAND (events (stopPlay v channel) st) = false
  /\ m' Z80_DRV_COMMAND = mem st Z80_DRV_COMMAND.
Proof.
  intros Hlay Hchannel m'.
  assert (Hn : channels v <= 4) by (destruct v; cbn; lia).
  assert (Hch : match v with PCM => 0 | _ => channel end = channel)
    by (destruct v; cbn in Hchannel; lia).
  assert (Hpcm : v = PCM -> channel = 0) by (intros ->; cbn in Hchannel; lia).
  unfold m'. rewrite stopPlay_mem, Hch.
  rewrite stopPlay_effect_play, stopPlay_effect_loop, stopPlay_effect_params
    by (assumption || lia).
  split; [| split; [| split; [reflexivity | split]]].
  - rewrite testbit_clear by lia. rewrite Z.eqb_refl. apply andb_false_r.
  - rewrite testbit_clear by lia. rewrite Z.eqb_refl. apply andb_false_r.
  - destruct Hlay as [Hcs Hsp]. destruct st as [m ld b tr].
    destruct v; run_code; cbn [channels] in Hchannel;
      cbn [app writes_to existsb]; address_tests; reflexivity.
  - destruct Hlay as [Hcs Hsp].
    apply stopPlay_effect_frame; unfold internal_params; (assumption || lia).
Qed.

(** C6. For each driver with 4 channels, every channel [c] and every prior
    state of the window, [stopPlay c] leaves the play bit, the loop bit,
    the base and internal parameters and the volume byte of every other
    channel as they were. *)
Theorem stopPlay_other_channels (v : pcm_variant) (st : machine) (c c' : Z) :
  layout_ok H -> channels v = 4 ->
  0 <= c < 4 -> 0 <= c' < 4 -> c' <> c ->
  let m := mem st in
  let m' := mem (exec (stopPlay v c) st) in
  Z.testbit (m' Z80_DRV_STATUS) c' = Z.testbit (m Z80_DRV_STATUS) c'
  /\ Z.testbit (m' (Z80_DRV_STATUS + 1)) c'
     = Z.testbit (m (Z80_DRV_STATUS + 1)) c'
  /\ read_params m' (base_params c') = read_params m (base_params c')
  /\ read_params m' (internal_params c') = read_params m (internal_params c')
  /\ m' (Z80_DRV_PARAMS + 0x20 + c') = m (Z80_DRV_PARAMS + 0x20 + c').
Proof.
  intros Hlay Hv Hc Hc' Hne m m'.
  assert (Hch : match v with PCM => 0 | _ => c end = c)
    by (destruct v; cbn in Hv; lia).
  assert (Hpcm : v = PCM -> c = 0) by (intros ->; cbn in Hv; lia).
  unfold m'. rewrite stopPlay_mem, Hch.
  rewrite stopPlay_effect_play, stopPlay_effect_loop by (assumption || lia).
  destruct Hlay as [Hcs Hsp].
  split; [| split; [| split; [| split]]].
  - rewrite testbit_clear by lia.
    destruct (Z.eqb_spec c c'); [congruence | apply andb_true_r].
  - rewrite testbit_clear by lia.
    destruct (Z.eqb_spec c c'); [congruence | apply andb_true_r].
  - unfold read_params.
    rewrite !stopPlay_effect_frame
      by (unfold internal_params, base_params; (assumption || lia)).
    reflexivity.
  - unfold read_params.
    rewrite !stopPlay_effect_frame
      by (unfold internal_params; (assumption || lia)).
    reflexivity.
  - apply stopPlay_effect_frame; unfold internal_params; (assumption || lia).
Qed.

(** ** The envelope driver *)

Lemma low_nibble_range (x : Z) : 0 <= Z.land x 0x0F < 16.
Proof.
  change 0x0F with (Z.ones 4). rewrite Z.land_ones by lia.
  apply Z.mod_pos_bound. reflexivity.
Qed.

Lemma low_nibble_small (x : Z) : 0 <= x <= 15 -> Z.land x 0x0F = x.
Proof.
  intros Hx. change 0x0F with (Z.ones 4). rewrite Z.land_ones by lia.
  apply Z.mod_small. change (2 ^ 4) with 16. lia.
Qed.

(** C7. For the envelope driver and every channel, [setVolume] stores the
    low 4 bits of the volume it is given, whatever its high bits, and
    [getVolume] after it returns these 4 bits: the volume itself for every
    volume from 0 to 15. *)
Theorem volume_set_get (st : machine) (channel volume : Z) :
  let st' := exec (SND_setVolume_4PCM_ENV channel volume) st in
  mem st' (Z80_DRV_PARAMS + 0x20 + channel) = Z.land volume 0x0F
  /\ eval (SND_getVolume_4PCM_ENV channel) st' = Z.land volume 0x0F
  /\ (0 <= volume <= 15 -> eval (SND_getVolume_4PCM_ENV channel) st' = volume)
  /\ (16 <= volume -> eval (SND_getVolume_4PCM_ENV channel) st' = volume mod 16).
Proof.
  intros st'.
  pose proof (low_nibble_range volume) as Hr.
  assert (Hcell : mem st' (Z80_DRV_PARAMS + 0x20 + channel) = Z.land volume 0x0F).
  { unfold st'. destruct st as [m ld b tr]. run_code.
    rewrite upd_same. apply to_u8_small. lia. }
  assert (Hget : eval (SND_getVolume_4PCM_ENV channel) st' = Z.land volume 0x0F).
  { transitivity
      (to_u8 (Z.land (to_u8 (mem st' (Z80_DRV_PARAMS + 0x20 + channel))) 0x0F)).
    - destruct st' as [m ld b tr]. reflexivity.
    - rewrite Hcell. rewrite (to_u8_small (Z.land volume 0x0F)) by lia.
      rewrite <- Z.land_assoc. change (Z.land 0x0F 0x0F) with 0x0F.
      apply to_u8_small. lia. }
  split; [exact Hcell |]. split; [exact Hget |]. split.
  - intros Hv. rewrite Hget. apply low_nibble_small. exact Hv.
  - intros _. rewrite Hget. change 0x0F with (Z.ones 4).
    rewrite Z.land_ones by lia. reflexivity.
Qed.

(** ** The TFM driver *)

(** C9. For every song address [A], [SND_startPlay_TFM] makes four writes:
    bits 0-7 of [A] at offset 0 of [0xA01FFC], bits 8-15 at offset 1, bits
    16-23 at offset 2, and bits 24-31 at offset 0 again.  Offset 3 is never
    written, and what the call leaves in memory does not depend on the low
    8 bits of [A]. *)
Theorem startPlay_TFM_address (st : machine) (song : Z) :
  0 <= song < 4294967296 ->
  let st' := exec (SND_startPlay_TFM song) st in
  writes_of (events (SND_startPlay_TFM song) st)
  = [ (0xA01FFC + 0, Z.land song 0xFF);
      (0xA01FFC + 1, Z.land (Z.shiftr song 8) 0xFF);
      (0xA01FFC + 2, Z.land (Z.shiftr song 16) 0xFF);
      (0xA01FFC + 0, Z.land (Z.shiftr song 24) 0xFF) ]
  /\ mem st' (0xA01FFC + 0) = Z.land (Z.shiftr song 24) 0xFF
  /\ mem st' (0xA01FFC + 1) = Z.land (Z.shiftr song 8) 0xFF
  /\ mem st' (0xA01FFC + 2) = Z.land (Z.shiftr song 16) 0xFF
  /\ writes_to (0xA01FFC + 3) (events (SND_startPlay_TFM song) st) = false
  /\ mem st' (0xA01FFC + 3) = mem st (0xA01FFC + 3)
  /\ (forall song', 0 <= song' < 4294967296 ->
        Z.shiftr song' 8 = Z.shiftr song 8 ->
        forall a, mem (exec (SND_startPlay_TFM song') st) a = mem st' a).
Proof.
  intros Hsong st'. unfold st'. destruct st as [m ld b tr].
  rewrite <- !to_u8_land.
  split; [| split; [| split; [| split; [| split; [| split]]]]].
  - run_code. rewrite to_u32_small by exact Hsong. reflexivity.
  - run_code. rewrite to_u32_small by exact Hsong. reflexivity.
  - run_code. rewrite to_u32_small by exact Hsong. reflexivity.
  - run_code. rewrite to_u32_small by exact Hsong. reflexivity.
  - reflexivity.
  - reflexivity.
  - intros song' Hsong' Hsame a. run_code.
    rewrite !to_u32_small by assumption.
    replace (Z.shiftr song' 16) with (Z.shiftr (Z.shiftr song' 8) 8)
      by (rewrite Z.shiftr_shiftr by lia; reflexivity).
    replace (Z.shiftr song' 24) with (Z.shiftr (Z.shiftr song' 8) 16)
      by (rewrite Z.shiftr_shiftr by lia; reflexivity).
    replace (Z.shiftr song 16) with (Z.shiftr (Z.shiftr song 8) 8)
      by (rewrite Z.shiftr_shiftr by lia; reflexivity).
    replace (Z.shiftr song 24) with (Z.shiftr (Z.shiftr song 8) 16)
      by (rewrite Z.shiftr_shiftr by lia; reflexivity).
    rewrite Hsame. unfold upd.
    destruct (a =? 10493948 + 0); [reflexivity |].
    destruct (a =? 10493948 + 2); [reflexivity |].
    destruct (a =? 10493948 + 1); reflexivity.
Qed.

(** ** The order of the calls *)

(** C5, as the code has it.  Every public function of sound.c but
    [SND_startPlay_TFM] calls the loader for its own driver first, then
    requests the bus, then only reads and writes bytes, and releases the
    bus last.  [SND_startPlay_TFM] requests the bus, writes, releases the
    bus, and only then calls the loader and resets the Z80. *)
Theorem calls_order (c : call) (st : machine) :
  match c with
  | Call_startPlay_TFM _ => loads_after_release (events_of c st) = true
  | _ => follows_protocol (driver_of c) (events_of c st) = true
  end.
Proof.
  destruct st as [m ld b tr].
  destruct c; run_code;
    try match goal with
        | |- context [c_true ?l] => destruct (c_true l)
        end;
    reflexivity.
Qed.

End Protocol.

(** * Properties of the WAV sample preparation *)

Import SoundUtil.

Section Wav.

Variable P : platform.

Lemma read_all_closes_nothing (input : stream) :
  forall data off,
    Forall (fun a => exists o, a = ActRead o) (snd (read_all input data off)).
Proof.
  induction input as [| [bs |] rest IH]; intros data off; cbn [read_all];
    destruct (result_length - off <? 256); cbn [snd];
    try (constructor; [eexists; reflexivity | constructor]).
  destruct (0 <? Z.of_nat (List.length bs)).
  - specialize (IH (data ++ bs)%list (off + Z.of_nat (List.length bs))).
    destruct (read_all rest (data ++ bs) (off + Z.of_nat (List.length bs)))
      as [r acts].
    cbn [snd] in *. constructor; [eexists; reflexivity | exact IH].
  - constructor; [eexists; reflexivity | constructor].
Qed.

(** When no read fails and the bytes leave room for one more read of 256
    in the array, the loop ends by itself with the bytes delivered. *)
Lemma read_all_returns (input : stream) :
  forall data off,
    reads_succeed input = true ->
    off + Z.of_nat (List.length (delivered input)) <= result_length - 256 ->
    fst (read_all input data off) = Returned (data ++ delivered input)%list.
Proof.
  induction input as [| [bs |] rest IH]; intros data off Hok Hfit;
    cbn [read_all delivered reads_succeed] in *.
  - cbn [List.length] in Hfit.
    destruct (Z.ltb_spec (result_length - off) 256); [lia |].
    cbn [fst]. rewrite app_nil_r. reflexivity.
  - destruct (Z.ltb_spec 0 (Z.of_nat (List.length bs))) as [Hpos | Hzero].
    + rewrite length_app, Nat2Z.inj_add in Hfit.
      destruct (Z.ltb_spec (result_length - off) 256); [lia |].
      specialize (IH (data ++ bs)%list (off + Z.of_nat (List.length bs)) Hok).
      destruct (read_all rest (data ++ bs) (off + Z.of_nat (List.length bs)))
        as [r acts].
      cbn [fst] in *. rewrite IH by lia. rewrite app_assoc. reflexivity.
    + cbn [List.length] in Hfit.
      destruct (Z.ltb_spec (result_length - off) 256); [lia |].
      cbn [fst]. rewrite app_nil_r. reflexivity.
  - discriminate.
Qed.

(** When a read fails before the array is full, the loop ends with the
    I/O error. *)
Lemma read_all_fails (input : stream) :
  forall data off,
    reads_succeed input = false ->
    off + Z.of_nat (List.length (delivered input)) <= result_length - 256 ->
    fst (read_all input data off) = Thrown IOException.
Proof.
  induction input as [| [bs |] rest IH]; intros data off Hfail Hfit;
    cbn [read_all delivered reads_succeed] in *.
  - discriminate.
  - destruct (Z.ltb_spec 0 (Z.of_nat (List.length bs))) as [Hpos | Hzero];
      [| discriminate].
    rewrite length_app, Nat2Z.inj_add in Hfit.
    destruct (Z.ltb_spec (result_length - off) 256); [lia |].
    specialize (IH (data ++ bs)%list (off + Z.of_nat (List.length bs)) Hfail).
    destruct (read_all rest (data ++ bs) (off + Z.of_nat (List.length bs)))
      as [r acts].
    cbn [fst] in *. apply IH. lia.
  - cbn [List.length] in Hfit.
    destruct (Z.ltb_spec (result_length - off) 256); [lia | reflexivity].
Qed.

(** When the stream gives more than the array has room for, the loop ends
    with the bounds error of the read that does not fit. *)
Lemma read_all_overflows (input : stream) :
  forall data off,
    result_length - 256 < off + Z.of_nat (List.length (delivered input)) ->
    fst (read_all input data off) = Thrown IndexOutOfBoundsException.
Proof.
  induction input as [| [bs |] rest IH]; intros data off Hbig;
    cbn [read_all delivered] in *.
  - cbn [List.length] in Hbig.
    destruct (Z.ltb_spec (result_length - off) 256); [reflexivity | lia].
  - destruct (Z.ltb_spec (result_length - off) 256) as [Hfull | Hroom];
      [reflexivity |].
    destruct (Z.ltb_spec 0 (Z.of_nat (List.length bs))) as [Hpos | Hzero].
    + rewrite length_app, Nat2Z.inj_add in Hbig.
      specialize (IH (data ++ bs)%list (off + Z.of_nat (List.length bs))).
      destruct (read_all rest (data ++ bs) (off + Z.of_nat (List.length bs)))
        as [r acts].
      cbn [fst] in *. apply IH. lia.
    + cbn [List.length] in Hbig. lia.
  - cbn [List.length] in Hbig.
    destruct (Z.ltb_spec (result_length - off) 256); [reflexivity | lia].
Qed.

(** The method on a file that opens, by the two branches of its test of
    [resampledInput]. *)
Lemma getRawDataFromWAV_unsupported (wavPath : string) (bits rate : Z)
    (mono signed bigEndian : bool) (wavFormat : AudioFormat) :
  getAudioInputStream_file P wavPath = Opened wavFormat ->
  let dstFormat := target_format wavFormat bits rate mono signed bigEndian in
  isConversionSupported P dstFormat wavFormat = false ->
  getRawDataFromWAV P wavPath bits rate mono signed bigEndian
  = (match wavInput_close P with
     | Closed =>
         Thrown (UnsupportedAudioFileException
                   ("Error: couldn't resample '" ++ wavPath
                    ++ "' WAV file.")%string)
     | CloseFails => Thrown IOException
     end,
     [ActOpenFile wavPath; ActQueryConversion dstFormat wavFormat;
      ActCloseWav]).
Proof.
  intros Hopen dstFormat Hsup. unfold getRawDataFromWAV, resample.
  rewrite Hopen. fold dstFormat. rewrite Hsup. cbn [negb].
  destruct (wavInput_close P); reflexivity.
Qed.

Lemma getRawDataFromWAV_supported (wavPath : string) (bits rate : Z)
    (mono signed bigEndian : bool) (wavFormat : AudioFormat) :
  getAudioInputStream_file P wavPath = Opened wavFormat ->
  let dstFormat := target_format wavFormat bits rate mono signed bigEndian in
  let input := getAudioInputStream_format P dstFormat wavPath in
  isConversionSupported P dstFormat wavFormat = true ->
  getRawDataFromWAV P wavPath bits rate mono signed bigEndian
  = (fst (finally_close P (fst (read_all input [] 0))),
     [ActOpenFile wavPath; ActQueryConversion dstFormat wavFormat;
      ActOpenConverted dstFormat]
     ++ snd (read_all input [] 0)
     ++ snd (finally_close P (fst (read_all input [] 0))))%list.
Proof.
  intros Hopen dstFormat input Hsup. unfold getRawDataFromWAV, resample.
  rewrite Hopen. fold dstFormat. rewrite Hsup. cbn [negb]. fold input.
  destruct (read_all input [] 0) as [res reads]. cbn [fst snd].
  destruct (finally_close P res) as [res' closes]. reflexivity.
Qed.

(** C8, as the code has it.  Once the WAV file is open: when the platform
    does not support the conversion to the target format, the method asks
    once, calls [close()] on the WAV stream and then throws
    [UnsupportedAudioFileException], or the [IOException] of that
    [close()] when it fails.  When the platform supports the conversion,
    the method reads the converted stream and then, on every outcome of
    the reads, calls [close()] on the converted stream and, when that
    returned, on the WAV stream; a [close()] that fails makes the method
    throw [IOException].  When both return, the method returns the bytes of
    the converted stream if no read fails and the bytes leave room in the
    array for a read of 256, throws [IOException] if a read fails before
    that room is used up, and throws [IndexOutOfBoundsException] if the
    stream gives more bytes than the array holds. *)
Theorem getRawDataFromWAV_outcomes (wavPath : string) (bits rate : Z)
    (mono signed bigEndian : bool) (wavFormat : AudioFormat) :
  getAudioInputStream_file P wavPath = Opened wavFormat ->
  let dstFormat := target_format wavFormat bits rate mono signed bigEndian in
  let input := getAudioInputStream_format P dstFormat wavPath in
  let r := getRawDataFromWAV P wavPath bits rate mono signed bigEndian in
  (isConversionSupported P dstFormat wavFormat = false ->
     snd r = [ActOpenFile wavPath; ActQueryConversion dstFormat wavFormat;
              ActCloseWav]
     /\ (wavInput_close P = Closed ->
         fst r = Thrown (UnsupportedAudioFileException
                           ("Error: couldn't resample '" ++ wavPath
                            ++ "' WAV file.")%string))
     /\ (wavInput_close P = CloseFails -> fst r = Thrown IOException))
  /\ (isConversionSupported P dstFormat wavFormat = true ->
      (exists reads,
          Forall (fun a => exists o, a = ActRead o) reads
          /\ snd r
             = ([ActOpenFile wavPath; ActQueryConversion dstFormat wavFormat;
                 ActOpenConverted dstFormat] ++ reads
                ++ match resampledInput_close P with
                   | Closed => [ActCloseResampled; ActCloseWav]
                   | CloseFails => [ActCloseResampled]
                   end)%list)
      /\ (resampledInput_close P = CloseFails \/ wavInput_close P = CloseFails ->
          fst r = Thrown IOException)
      /\ (resampledInput_close P = Closed -> wavInput_close P = Closed ->
          (reads_succeed input = true ->
           Z.of_nat (List.length (delivered input)) <= result_length - 256 ->
           fst r = Returned (delivered input))
          /\ (reads_succeed input = false ->
              Z.of_nat (List.length (delivered input)) <= result_length - 256 ->
              fst r = Thrown IOException)
          /\ (result_length < Z.of_nat (List.length (delivered input)) ->
              fst r = Thrown IndexOutOfBoundsException))).
Proof.
  intros Hopen dstFormat input r. split; intros Hsup.
  - unfold r.
    rewrite (getRawDataFromWAV_unsupported wavPath bits rate mono signed
               bigEndian wavFormat Hopen Hsup).
    cbn [fst snd]. split; [reflexivity |].
    split; intros Hclose; rewrite Hclose; reflexivity.
  - unfold r.
    rewrite (getRawDataFromWAV_supported wavPath bits rate mono signed
               bigEndian wavFormat Hopen Hsup).
    fold dstFormat input. cbn [fst snd]. unfold finally_close.
    split; [| split].
    + exists (snd (read_all input [] 0)).
      split; [apply read_all_closes_nothing |].
      destruct (resampledInput_close P); [| reflexivity].
      destruct (wavInput_close P); reflexivity.
    + intros [Hclose | Hclose]; rewrite Hclose;
        [reflexivity | destruct (resampledInput_close P); reflexivity].
    + intros Hc1 Hc2. rewrite Hc1, Hc2. cbn [fst].
      split; [| split].
      * intros Hok Hfit. apply (read_all_returns input [] 0 Hok). lia.
      * intros Hfail Hfit. apply (read_all_fails input [] 0 Hfail). lia.
      * intros Hbig. apply read_all_overflows. unfold result_length in *. lia.
Qed.

End Wav.

(** * The theorems at work on concrete inputs *)

Lemma window_layout : layout_ok window.
Proof. unfold layout_ok. cbn. lia. Qed.

(** 2ADPCM, channel 1, sample at 0x12380 of 0x4500 bytes: the parameters
    hold 0x0247 and 0x008A, the address and the length over 128. *)
Lemma startPlay_params_roundtrip_witness :
  let m' :=
    mem (exec (@startPlay window ADPCM2 0x12380 0x4500 1 0 0 1) (machine_of 0)) in
  let pb := @base_params window 1 in
  read_params m' pb = [0x47; 0x02; 0x8A; 0x00]
  /\ decode16 (m' (pb + 0)) (m' (pb + 1)) = 0x0247
  /\ decode16 (m' (pb + 2)) (m' (pb + 3)) = 0x008A.
Proof.
  destruct (@startPlay_params_roundtrip window ADPCM2 (machine_of 0)
              0x12380 0x4500 1 0 0 1) as (Hblock & Haddr & Hlen).
  - exact window_layout.
  - lia.
  - lia.
  - lia.
  - split; [exact Hblock |].
    split; [apply Haddr | apply Hlen]; reflexivity.
Defined.

(** 4PCM with channels 0 and 2 playing (status byte 5): the automatic
    selector takes channel 1. *)
Lemma startPlay_auto_channel_witness :
  @selected_channel window PCM4
    (to_u8 (mem (machine_of 5) (@Z80_DRV_STATUS window)))
    (@SOUND_PCM_CH_AUTO window) = 1.
Proof.
  destruct (@startPlay_auto_channel window PCM4 (machine_of 5) 0x1000 0x200 0 0 0)
    as (_ & _ & Hfree & _).
  - discriminate.
  - apply Hfree.
    + cbn [channels]. lia.
    + reflexivity.
    + intros c' Hc'. assert (c' = 0) by lia. subst c'. reflexivity.
Defined.

(** 4PCM, channel 2 stopped in a window of bytes 0xFF. *)
Lemma stopPlay_null_sample_witness :
  let m' := mem (exec (@stopPlay window PCM4 2) (machine_of 0xFF)) in
  Z.testbit (m' (@Z80_DRV_STATUS window)) 2 = false
  /\ Z.testbit (m' (@Z80_DRV_STATUS window + 1)) 2 = false
  /\ read_params m' (@internal_params window 2) = [0x12; 0x00; 0x01; 0x00]
  /\ writes_to (@Z80_DRV_COMMAND window)
       (events (@stopPlay window PCM4 2) (machine_of 0xFF)) = false
  /\ m' (@Z80_DRV_COMMAND window) = 0xFF.
Proof.
  apply (@stopPlay_null_sample window PCM4 (machine_of 0xFF) 2).
  - exact window_layout.
  - cbn. lia.
Defined.

(** 4PCM, channel 3 started with the loop flag in a window of zeros. *)
Lemma startPlay_explicit_channel_witness :
  let st := machine_of 0 in
  let m' := mem (exec (@startPlay window PCM4 0x1000 0x200 3 0 0 1) st) in
  Z.testbit (m' (@Z80_DRV_COMMAND window)) 3 = true
  /\ Z.testbit (m' (@Z80_DRV_COMMAND window)) 0 = false
  /\ m' (@Z80_DRV_STATUS window) = 0
  /\ Z.testbit (m' (@Z80_DRV_STATUS window + 1)) 3 = true.
Proof.
  destruct (@startPlay_explicit_channel window PCM4 (machine_of 0)
              0x1000 0x200 3 0 0 1) as (Hset & Hothers & Hplay & _ & Hloop).
  - exact window_layout.
  - cbn. lia.
  - cbn. lia.
  - split; [exact Hset |].
    split; [rewrite (Hothers 0) by lia; reflexivity |].
    split; [exact Hplay | exact Hloop].
Defined.

(** 4PCM with channels 0 and 2 playing and looping: stopping channel 1
    leaves the bits of channels 0 and 2 and their parameters. *)
Lemma stopPlay_other_channels_witness :
  let m' := mem (exec (@stopPlay window PCM4 1) (machine_of 5)) in
  (Z.testbit (m' (@Z80_DRV_STATUS window)) 0 = true
   /\ Z.testbit (m' (@Z80_DRV_STATUS window + 1)) 0 = true
   /\ read_params m' (@base_params window 0) = [5; 5; 5; 5])
  /\ (Z.testbit (m' (@Z80_DRV_STATUS window)) 2 = true
      /\ Z.testbit (m' (@Z80_DRV_STATUS window + 1)) 2 = true
      /\ read_params m' (@base_params window 2) = [5; 5; 5; 5]).
Proof.
  split.
  - destruct (@stopPlay_other_channels window PCM4 (machine_of 5) 1 0)
      as (Hplay & Hloop & Hbase & _).
    + exact window_layout.
    + reflexivity.
    + lia.
    + lia.
    + lia.
    + split; [exact Hplay |]. split; [exact Hloop | exact Hbase].
  - destruct (@stopPlay_other_channels window PCM4 (machine_of 5) 1 2)
      as (Hplay & Hloop & Hbase & _).
    + exact window_layout.
    + reflexivity.
    + lia.
    + lia.
    + lia.
    + split; [exact Hplay |]. split; [exact Hloop | exact Hbase].
Defined.

(** Volume 9 comes back as 9, volume 0x1F as 15. *)
Lemma volume_set_get_witness :
  eval (@SND_getVolume_4PCM_ENV window 2)
    (exec (@SND_setVolume_4PCM_ENV window 2 9) (machine_of 0)) = 9
  /\ eval (@SND_getVolume_4PCM_ENV window 2)
       (exec (@SND_setVolume_4PCM_ENV window 2 0x1F) (machine_of 0)) = 15.
Proof.
  split.
  - destruct (@volume_set_get window (machine_of 0) 2 9) as (_ & _ & Hlow & _).
    apply Hlow. lia.
  - destruct (@volume_set_get window (machine_of 0) 2 0x1F) as (_ & _ & _ & Hhigh).
    apply Hhigh. lia.
Defined.

(** Song at 0x00ABCDEF: offset 0 ends with 0x00, the low byte 0xEF is in
    none of the four bytes, and the song at 0x00ABCD00 leaves the same
    memory. *)
Lemma startPlay_TFM_address_witness :
  let st' := exec (SND_startPlay_TFM 0x00ABCDEF) (machine_of 0x55) in
  read_params (mem st') 0xA01FFC = [0x00; 0xCD; 0xAB; 0x55]
  /\ forall a, mem (exec (SND_startPlay_TFM 0x00ABCD00) (machine_of 0x55)) a
               = mem st' a.
Proof.
  destruct (startPlay_TFM_address (machine_of 0x55) 0x00ABCDEF)
    as (_ & H0 & H1 & H2 & _ & H3 & Hlow).
  - lia.
  - split.
    + unfold read_params. rewrite H0, H1, H2, H3. reflexivity.
    + apply Hlow; [lia | reflexivity].
Defined.

(** 4PCM, channel 1 started while the command bits of channels 0 and 2 are
    set: they stay set. *)
Lemma startPlay_command_or_witness :
  let m' :=
    mem (exec (@startPlay window PCM4 0x1000 0x200 1 0 0 0) (machine_of 5)) in
  m' (@Z80_DRV_COMMAND window) = 7
  /\ Z.testbit (m' (@Z80_DRV_COMMAND window)) 0 = true
  /\ Z.testbit (m' (@Z80_DRV_COMMAND window)) 2 = true.
Proof.
  destruct (@startPlay_command_or window PCM4 (machine_of 5) 0x1000 0x200 1 0 0 0)
    as (Hcmd & Hkept).
  - exact window_layout.
  - lia.
  - split; [exact Hcmd |].
    split; apply Hkept; (lia || reflexivity).
Defined.

(** C4 as stated fails: 4PCM started on channel 0, named explicitly, in a
    window of zeros leaves the play bit of channel 0 clear. *)
Lemma startPlay_play_bit_counterexample :
  0 <> @SOUND_PCM_CH_AUTO window
  /\ Z.testbit
       (mem (exec (@startPlay window PCM4 0x1000 0x200 0 0 0 0) (machine_of 0))
          (@Z80_DRV_STATUS window)) 0 = false.
Proof. split; [discriminate | reflexivity]. Qed.

(** C5 as stated fails: [SND_startPlay_TFM] does not start with the loader. *)
Lemma calls_order_counterexample :
  follows_protocol Z80_DRIVER_TFM
    (@events_of window (Call_startPlay_TFM 0x200000) (machine_of 0)) = false
  /\ @events_of window (Call_startPlay_TFM 0x200000) (machine_of 0)
     = [ EvRequestBus 1;
         EvWrite 0xA01FFC 0x00; EvWrite 0xA01FFD 0x00; EvWrite 0xA01FFE 0x20;
         EvWrite 0xA01FFC 0x00;
         EvReleaseBus; EvLoadDriver Z80_DRIVER_TFM 0;
         EvStartReset; EvEndReset ].
Proof. split; reflexivity. Qed.

(** The stream [oversized] gives 256 bytes more than the array holds, and
    none of its reads fails. *)
Lemma delivered_repeat (c : list byte) (n : nat) :
  (0 < List.length c)%nat ->
  List.length (delivered (repeat (ReadBytes c) n)) = (n * List.length c)%nat.
Proof.
  intros Hc. induction n as [| n IH]; cbn [repeat delivered Nat.mul].
  - reflexivity.
  - destruct (Z.ltb_spec 0 (Z.of_nat (List.length c))); [| lia].
    rewrite length_app, IH. reflexivity.
Qed.

Lemma reads_succeed_repeat (c : list byte) (n : nat) :
  reads_succeed (repeat (ReadBytes c) n) = true.
Proof.
  induction n as [| n IH]; cbn [repeat reads_succeed]; [reflexivity |].
  destruct (0 <? Z.of_nat (List.length c)); [exact IH | reflexivity].
Qed.

Lemma oversized_length :
  Z.of_nat (List.length (delivered oversized)) = result_length + 256.
Proof.
  unfold oversized.
  assert (Hc : List.length chunk_256 = 256%nat)
    by (unfold chunk_256; apply repeat_length).
  rewrite delivered_repeat by (rewrite Hc; lia).
  rewrite Nat2Z.inj_mul, Z2Nat.id, Hc by lia. reflexivity.
Qed.

(** An unsupported conversion; a supported one whose reads give 3 and 2
    bytes; the same with a [close()] of the converted stream that fails;
    one whose second read fails; and one that gives more than 128 MB. *)
Lemma getRawDataFromWAV_outcomes_witness :
  getRawDataFromWAV (platform_of false two_chunks) "s.wav" 8 16000 true true false
  = (Thrown (UnsupportedAudioFileException
               "Error: couldn't resample 's.wav' WAV file."),
     [ActOpenFile "s.wav";
      ActQueryConversion (mkAudioFormat PCM_SIGNED 16000 8 1 1 16000 false)
        cd_format;
      ActCloseWav])
  /\ fst (getRawDataFromWAV (platform_of true two_chunks) "s.wav" 8 16000
            true true false)
     = Returned [x01; x02; x03; x04; x05]
  /\ fst (getRawDataFromWAV (platform_closing true two_chunks CloseFails Closed)
            "s.wav" 8 16000 true true false)
     = Thrown IOException
  /\ fst (getRawDataFromWAV
            (platform_of true [ReadBytes [x01; x02; x03]; ReadFails])
            "s.wav" 8 16000 true true false)
     = Thrown IOException
  /\ fst (getRawDataFromWAV (platform_of true oversized) "s.wav" 8 16000
            true true false)
     = Thrown IndexOutOfBoundsException.
Proof.
  split; [| split; [| split; [| split]]].
  - destruct (getRawDataFromWAV_outcomes (platform_of false two_chunks)
                "s.wav" 8 16000 true true false cd_format eq_refl)
      as (Hunsupported & _).
    destruct (Hunsupported eq_refl) as (Hacts & Hthrown & _).
    apply injective_projections; [exact (Hthrown eq_refl) | exact Hacts].
  - destruct (getRawDataFromWAV_outcomes (platform_of true two_chunks)
                "s.wav" 8 16000 true true false cd_format eq_refl)
      as (_ & Hsupported).
    destruct (Hsupported eq_refl) as (_ & _ & Hclosed).
    destruct (Hclosed eq_refl eq_refl) as (Hreturns & _).
    apply Hreturns; [reflexivity | vm_compute; discriminate].
  - destruct (getRawDataFromWAV_outcomes
                (platform_closing true two_chunks CloseFails Closed)
                "s.wav" 8 16000 true true false cd_format eq_refl)
      as (_ & Hsupported).
    destruct (Hsupported eq_refl) as (_ & Hclose & _).
    apply Hclose. left. reflexivity.
  - destruct (getRawDataFromWAV_outcomes
                (platform_of true [ReadBytes [x01; x02; x03]; ReadFails])
                "s.wav" 8 16000 true true false cd_format eq_refl)
      as (_ & Hsupported).
    destruct (Hsupported eq_refl) as (_ & _ & Hclosed).
    destruct (Hclosed eq_refl eq_refl) as (_ & Hfails & _).
    apply Hfails; [reflexivity | vm_compute; discriminate].
  - destruct (getRawDataFromWAV_outcomes (platform_of true oversized)
                "s.wav" 8 16000 true true false cd_format eq_refl)
      as (_ & Hsupported).
    destruct (Hsupported eq_refl) as (_ & _ & Hclosed).
    destruct (Hclosed eq_refl eq_refl) as (_ & _ & Hbig).
    apply Hbig.
    change (result_length < Z.of_nat (List.length (delivered oversized))).
    rewrite oversized_length. lia.
Defined.

(** C8 as stated fails, on its three counts.  With the conversion
    supported and the first read of the converted stream failing, the
    method throws [IOException].  With the conversion supported, no read
    failing and a stream of 256 bytes more than 128 MB, it throws
    [IndexOutOfBoundsException].  With the conversion not supported and a
    [close()] of the WAV stream that fails, it throws [IOException] and
    not the error of the conversion. *)
Lemma getRawDataFromWAV_counterexample :
  (isConversionSupported (platform_of true [ReadFails])
     (target_format cd_format 8 16000 true true false) cd_format = true
   /\ getRawDataFromWAV (platform_of true [ReadFails]) "s.wav" 8 16000
        true true false
      = (Thrown IOException,
         [ActOpenFile "s.wav";
          ActQueryConversion (mkAudioFormat PCM_SIGNED 16000 8 1 1 16000 false)
            cd_format;
          ActOpenConverted (mkAudioFormat PCM_SIGNED 16000 8 1 1 16000 false);
          ActRead 0; ActCloseResampled; ActCloseWav]))
  /\ (isConversionSupported (platform_of true oversized)
        (target_format cd_format 8 16000 true true false) cd_format = true
      /\ reads_succeed oversized = true
      /\ fst (getRawDataFromWAV (platform_of true oversized) "s.wav" 8 16000
                true true false)
         = Thrown IndexOutOfBoundsException)
  /\ (isConversionSupported (platform_closing false two_chunks Closed CloseFails)
        (target_format cd_format 8 16000 true true false) cd_format = false
      /\ getRawDataFromWAV (platform_closing false two_chunks Closed CloseFails)
           "s.wav" 8 16000 true true false
         = (Thrown IOException,
            [ActOpenFile "s.wav";
             ActQueryConversion
               (mkAudioFormat PCM_SIGNED 16000 8 1 1 16000 false) cd_format;
             ActCloseWav])).
Proof.
  split; [split; reflexivity |]. split; [| split; reflexivity].
  split; [reflexivity |].
  split; [apply reads_succeed_repeat |].
  rewrite (getRawDataFromWAV_supported (platform_of true oversized)
             "s.wav" 8 16000 true true false cd_format eq_refl eq_refl).
  cbn [fst].
  change (getAudioInputStream_format (platform_of true oversized)
            (target_format cd_format 8 16000 true true false) "s.wav")
    with oversized.
  rewrite read_all_overflows; [reflexivity |].
  rewrite oversized_length. lia.
Qed.

(** * Further properties of the register protocol *)

(** A byte is not zero exactly when one of its 8 bits is set. *)
Lemma byte_nonzero_bit (x : Z) :
  to_u8 x <> 0 <-> exists i, 0 <= i < 8 /\ Z.testbit x i = true.
Proof.
  pose proof (to_u8_range x) as Hr. split.
  - intros Hnz. exists (Z.log2 (to_u8 x)).
    assert (Hpos : 0 < to_u8 x) by lia.
    assert (Hbit : Z.testbit (to_u8 x) (Z.log2 (to_u8 x)) = true)
      by (apply Z.bit_log2; exact Hpos).
    assert (Hlog : Z.log2 (to_u8 x) < 8)
      by (apply Z.log2_lt_pow2; [exact Hpos | change (2 ^ 8) with 256; lia]).
    pose proof (Z.log2_nonneg (to_u8 x)) as Hnn.
    rewrite testbit_to_u8 in Hbit. apply andb_true_iff in Hbit.
    split; [lia | apply Hbit].
  - intros (i & Hi & Hbit) Hz.
    assert (Hb : Z.testbit (to_u8 x) i = true).
    { rewrite testbit_to_u8, Hbit.
      destruct (Z.ltb_spec i 8); [reflexivity | lia]. }
    rewrite Hz, Z.bits_0 in Hb. discriminate.
Qed.

Section Queries.

Context {H : headers}.

(** What [isPlaying] returns, in terms of the status byte. *)
Lemma isPlaying_eval (v : pcm_variant) (st : machine) (channel_mask : Z) :
  eval (isPlaying v channel_mask) st
  = to_u8 (Z.land (to_u8 (mem st Z80_DRV_STATUS)) (tested_mask v channel_mask)).
Proof. destruct st as [m ld b tr]. destruct v; reflexivity. Qed.

(** X1. [isPlaying] returns a byte that is not zero exactly when the play
    bit of one of the channels of its mask is set in the status byte (for
    the single channel driver: when bit 0 is set). *)
Theorem isPlaying_some_channel (v : pcm_variant) (st : machine)
    (channel_mask : Z) :
  let r := eval (isPlaying v channel_mask) st in
  0 <= r < 256
  /\ (r <> 0 <->
      exists i, 0 <= i < 8
                /\ Z.testbit (mem st Z80_DRV_STATUS) i = true
                /\ Z.testbit (match v with PCM => 1 | _ => channel_mask end) i
                   = true).
Proof.
  intros r. unfold r. rewrite isPlaying_eval. split; [apply to_u8_range |].
  assert (Hmask : tested_mask v channel_mask
                  = match v with PCM => 1 | _ => channel_mask end).
  { destruct v; cbv [tested_mask Z80_DRV_STAT_PLAYING Z80_DRV_STAT_PLAYING_SFT];
      rewrite ?Z.shiftl_0_r; reflexivity. }
  rewrite Hmask, byte_nonzero_bit.
  split; intros (i & Hi & Hbits); exists i; (split; [exact Hi |]).
  - rewrite Z.land_spec, testbit_to_u8 in Hbits.
    apply andb_true_iff in Hbits. destruct Hbits as [Hs Hm].
    apply andb_true_iff in Hs. split; [apply Hs | exact Hm].
  - destruct Hbits as [Hs Hm]. rewrite Z.land_spec, testbit_to_u8, Hs, Hm.
    destruct (Z.ltb_spec i 8); [reflexivity | lia].
Qed.

(** X2. The functions that return a value (the five [isPlaying] and
    [getVolume]) only read: they make no write and leave the memory as it
    was. *)
Theorem queries_only_read (c : call) (st : machine) :
  is_query c = true ->
  mem (exec (run c) st) = mem st /\ writes_of (events_of c st) = [].
Proof.
  intros Hq. destruct st as [m ld b tr].
  destruct c; try discriminate Hq; split; reflexivity.
Qed.

(** X3. After [stopPlay] on a channel of the driver, [isPlaying] asked for
    that channel alone returns 0. *)
Theorem stopPlay_then_isPlaying (v : pcm_variant) (st : machine) (channel : Z) :
  layout_ok H -> 0 <= channel < channels v ->
  eval (isPlaying v (Z.shiftl 1 channel)) (exec (stopPlay v channel) st) = 0.
Proof.
  intros Hlay Hchannel.
  assert (Hn : channels v <= 4) by (destruct v; cbn; lia).
  assert (Hch : match v with PCM => 0 | _ => channel end = channel)
    by (destruct v; cbn in Hchannel; lia).
  assert (Hmask : tested_mask v (Z.shiftl 1 channel) = Z.shiftl 1 channel).
  { destruct v; cbv [tested_mask Z80_DRV_STAT_PLAYING Z80_DRV_STAT_PLAYING_SFT];
      rewrite ?Z.shiftl_0_r; [| reflexivity ..].
    cbn in Hchannel. replace channel with 0 by lia. reflexivity. }
  rewrite isPlaying_eval, stopPlay_mem, Hch, Hmask.
  rewrite stopPlay_effect_play by (assumption || lia).
  destruct (Z.eq_dec
              (to_u8 (Z.land
                 (to_u8 (to_u8 (Z.land (to_u8 (mem st Z80_DRV_STATUS))
                                       (Z.lnot (Z.shiftl 1 channel)))))
                 (Z.shiftl 1 channel))) 0) as [Hz | Hnz]; [exact Hz |].
  apply byte_nonzero_bit in Hnz. destruct Hnz as (i & Hi & Hbit).
  rewrite Z.land_spec, testbit_to_u8, testbit_clear, testbit_channel_bit
    in Hbit by lia.
  destruct (Z.eqb_spec channel i); cbn in Hbit;
    rewrite ?andb_false_r in Hbit; discriminate.
Qed.

(** X4. [getVolume] returns a value from 0 to 15 whatever the memory
    holds. *)
Theorem getVolume_range (st : machine) (channel : Z) :
  0 <= eval (SND_getVolume_4PCM_ENV channel) st <= 15.
Proof.
  destruct st as [m ld b tr]. run_code.
  pose proof (low_nibble_range (to_u8 (m (Z80_DRV_PARAMS + 32 + channel)))) as Hr.
  rewrite to_u8_small; lia.
Qed.

(** X5. [setVolume] changes one byte only, the volume of its channel:
    every other byte of the memory is as it was, and [getVolume] of
    another channel returns what it returned before. *)
Theorem setVolume_other_channels (st : machine) (channel volume : Z) :
  let st' := exec (SND_setVolume_4PCM_ENV channel volume) st in
  (forall a, a <> Z80_DRV_PARAMS + 0x20 + channel -> mem st' a = mem st a)
  /\ (forall channel', channel' <> channel ->
        eval (SND_getVolume_4PCM_ENV channel') st'
        = eval (SND_getVolume_4PCM_ENV channel') st).
Proof.
  intros st'. unfold st'. destruct st as [m ld b tr]. split.
  - intros a Ha. run_code. apply upd_other. exact Ha.
  - intros channel' Hne. run_code. rewrite upd_other by lia. reflexivity.
Qed.

End Queries.

(** ** How [startPlay] and [stopPlay] compose *)

Lemma decode24_bytes (x : Z) :
  decode24 (to_u8 x) (to_u8 (Z.shiftr x 8)) (to_u8 (Z.shiftr x 16))
  = x mod 2 ^ 24.
Proof.
  unfold decode24. apply Z.bits_inj'. intros i Hi.
  rewrite Z.testbit_mod_pow2 by lia.
  rewrite !Z.lor_spec, !Z.shiftl_spec, !testbit_to_u8 by lia.
  destruct (Z.ltb_spec i 8); destruct (Z.ltb_spec (i - 8) 8);
    destruct (Z.ltb_spec (i - 16) 8); destruct (Z.ltb_spec i 24);
    try lia; cbn [andb orb];
    rewrite ?(Z.testbit_neg_r _ (i - 8)), ?(Z.testbit_neg_r _ (i - 16)) by lia;
    rewrite ?Z.shiftr_spec by lia;
    rewrite ?Z.sub_add, ?orb_false_r; reflexivity.
Qed.

Lemma low_bits_of_byte (x k : Z) :
  0 <= k <= 8 ->
  to_u8 (Z.land (to_u8 (to_u8 x)) (Z.ones k)) = Z.land x (Z.ones k).
Proof.
  intros Hk. apply Z.bits_inj'. intros i Hi.
  rewrite testbit_to_u8, !Z.land_spec, !testbit_to_u8.
  rewrite Z.testbit_ones_nonneg by lia.
  destruct (Z.ltb_spec i 8); destruct (Z.ltb_spec i k); try lia;
    cbn [andb]; rewrite ?andb_true_r, ?andb_false_r; reflexivity.
Qed.

Section Composition.

Context {H : headers}.

Lemma startPlay_effect_frame (v : pcm_variant)
    (ch sample len rate pan loop : Z) (m : memory) (a : Z) :
  ~ (base_params ch <= a < base_params ch + 4) ->
  a <> Z80_DRV_COMMAND -> a <> Z80_DRV_STATUS + 1 ->
  (v = PCM -> ch = 0 /\ a <> Z80_DRV_PARAMS + 4 /\ a <> Z80_DRV_PARAMS + 6) ->
  startPlay_effect v ch sample len rate pan loop m a = m a.
Proof.
  intros Hblock Hcmd Hloop Hpcm. unfold base_params in Hblock.
  destruct v; [destruct (Hpcm eq_refl) as (Hz & H4 & H6); subst ch | | |];
    cbv [startPlay_effect base_params]; mem_cells; reflexivity.
Qed.

Lemma selected_channel_range (v : pcm_variant) (status channel : Z) :
  channel = SOUND_PCM_CH_AUTO \/ 0 <= channel < channels v ->
  0 <= selected_channel v status channel < channels v.
Proof.
  intros Hc. destruct v; [cbn; lia | | |];
    (destruct (Z.eqb_spec channel SOUND_PCM_CH_AUTO) as [-> | Hne];
     [ match goal with
       | |- _ <= selected_channel ?v _ _ < _ =>
           apply (selected_channel_auto v status); discriminate
       end
     | rewrite selected_channel_explicit by (assumption || lia); lia ]).
Qed.

(** X6. [startPlay] changes nothing but the four base parameters of the
    channel it works on, the command byte, the byte of the loop bits and,
    for the single channel driver, its rate and pan bytes; in the byte of
    the loop bits it changes no bit but the one of its channel. *)
Theorem startPlay_other_cells (v : pcm_variant) (st : machine)
    (sample len channel rate pan loop : Z) :
  layout_ok H -> 0 <= channel ->
  let ch := selected_channel v (to_u8 (mem st Z80_DRV_STATUS)) channel in
  let m' := mem (exec (startPlay v sample len channel rate pan loop) st) in
  (forall a,
      ~ (base_params ch <= a < base_params ch + 4) ->
      a <> Z80_DRV_COMMAND -> a <> Z80_DRV_STATUS + 1 ->
      (v = PCM -> a <> Z80_DRV_PARAMS + 4 /\ a <> Z80_DRV_PARAMS + 6) ->
      m' a = mem st a)
  /\ (forall c, 0 <= c < 8 -> c <> ch ->
        Z.testbit (m' (Z80_DRV_STATUS + 1)) c
        = Z.testbit (mem st (Z80_DRV_STATUS + 1)) c).
Proof.
  intros Hlay Hchannel ch m'.
  assert (Hch : 0 <= ch) by (apply selected_channel_nonneg; exact Hchannel).
  unfold m'. rewrite startPlay_mem. fold ch. split.
  - intros a Hblock Hcmd Hloop Hpcm. apply startPlay_effect_frame; try assumption.
    intros Hv. split; [subst v; reflexivity | apply Hpcm; exact Hv].
  - intros c Hc Hne. rewrite startPlay_effect_loop by assumption.
    destruct (c_true loop).
    + rewrite testbit_set by lia.
      destruct (Z.eqb_spec ch c); [congruence | apply orb_false_r].
    + rewrite testbit_clear by lia.
      destruct (Z.eqb_spec ch c); [congruence | apply andb_true_r].
Qed.

(** X7. Two calls of [startPlay] with [SOUND_PCM_CH_AUTO] in a row work on
    the same channel: the first call does not change the status byte the
    scan reads, so the second one takes the channel again and its sample
    replaces the first in the parameters. *)
Theorem startPlay_auto_twice (v : pcm_variant) (st : machine)
    (sample1 len1 loop1 sample2 len2 loop2 rate pan : Z) :
  layout_ok H -> v <> PCM -> 0 <= sample2 < 4294967296 ->
  let st1 := exec (startPlay v sample1 len1 SOUND_PCM_CH_AUTO rate pan loop1) st in
  let st2 := exec (startPlay v sample2 len2 SOUND_PCM_CH_AUTO rate pan loop2) st1 in
  let ch1 :=
    selected_channel v (to_u8 (mem st Z80_DRV_STATUS)) SOUND_PCM_CH_AUTO in
  let ch2 :=
    selected_channel v (to_u8 (mem st1 Z80_DRV_STATUS)) SOUND_PCM_CH_AUTO in
  ch2 = ch1
  /\ read_params (mem st2) (base_params ch1)
     = encode_params (boundary_shift v) sample2 len2.
Proof.
  intros Hlay Hv Hsample st1 st2 ch1 ch2.
  assert (Hch1 : 0 <= ch1 < channels v)
    by (apply selected_channel_range; left; reflexivity).
  assert (Hstatus : mem st1 Z80_DRV_STATUS = mem st Z80_DRV_STATUS).
  { unfold st1. rewrite startPlay_mem. fold ch1.
    apply startPlay_effect_status; [exact Hlay | lia]. }
  assert (Hsame : ch2 = ch1) by (unfold ch2, ch1; rewrite Hstatus; reflexivity).
  split; [exact Hsame |].
  unfold st2. rewrite startPlay_mem. fold ch2. rewrite Hsame.
  rewrite startPlay_effect_params; [| exact Hlay | lia | congruence].
  rewrite to_u32_small by exact Hsample. reflexivity.
Qed.

(** X8. [stopPlay] right after [startPlay] on the same channel leaves the
    play bit and the loop bit of the channel clear and the null sample in
    its internal parameters, but it takes nothing back of the start: the
    command bit of the channel is still set and the base parameters still
    hold the sample. *)
Theorem startPlay_then_stopPlay (v : pcm_variant) (st : machine)
    (sample len channel rate pan loop : Z) :
  layout_ok H ->
  0 <= channel < channels v -> channel <> SOUND_PCM_CH_AUTO ->
  0 <= sample < 4294967296 ->
  let st1 := exec (startPlay v sample len channel rate pan loop) st in
  let m2 := mem (exec (stopPlay v channel) st1) in
  Z.testbit (m2 Z80_DRV_STATUS) channel = false
  /\ Z.testbit (m2 (Z80_DRV_STATUS + 1)) channel = false
  /\ Z.testbit (m2 Z80_DRV_COMMAND) channel = true
  /\ read_params m2 (base_params channel)
     = encode_params (boundary_shift v) sample len
  /\ read_params m2 (internal_params channel)
     = encode_params (boundary_shift v) (to_u32 (fst (null_sample v)))
         (snd (null_sample v)).
Proof.
  intros Hlay Hchannel Hne Hsample st1 m2.
  assert (Hn : channels v <= 4) by (destruct v; cbn; lia).
  assert (Hch : match v with PCM => 0 | _ => channel end = channel)
    by (destruct v; cbn in Hchannel; lia).
  assert (Hpcm : v = PCM -> channel = 0) by (intros ->; cbn in Hchannel; lia).
  unfold m2, st1. rewrite stopPlay_mem, Hch, startPlay_mem.
  rewrite selected_channel_explicit by assumption.
  pose proof Hlay as [Hcs Hsp].
  split; [| split; [| split; [| split]]].
  - rewrite stopPlay_effect_play by (assumption || lia).
    rewrite testbit_clear by lia. rewrite Z.eqb_refl. apply andb_false_r.
  - rewrite stopPlay_effect_loop by (assumption || lia).
    rewrite testbit_clear by lia. rewrite Z.eqb_refl. apply andb_false_r.
  - rewrite stopPlay_effect_frame
      by (unfold internal_params; (assumption || lia)).
    rewrite startPlay_effect_command by (assumption || lia).
    rewrite testbit_set by lia. rewrite Z.eqb_refl. apply orb_true_r.
  - transitivity
      (read_params (startPlay_effect v channel sample len rate pan loop (mem st))
         (base_params channel)).
    + unfold read_params.
      rewrite !stopPlay_effect_frame
        by (unfold internal_params, base_params; (assumption || lia)).
      reflexivity.
    + rewrite startPlay_effect_params by (assumption || lia).
      rewrite to_u32_small by exact Hsample. reflexivity.
  - apply stopPlay_effect_params; (assumption || lia).
Qed.

(** X9. [stopPlay] twice on a channel leaves the memory that [stopPlay]
    once leaves. *)
Theorem stopPlay_twice (v : pcm_variant) (st : machine) (channel : Z) :
  layout_ok H -> 0 <= channel < channels v ->
  forall a,
    mem (exec (stopPlay v channel) (exec (stopPlay v channel) st)) a
    = mem (exec (stopPlay v channel) st) a.
Proof.
  intros Hlay Hchannel a.
  assert (Hn : channels v <= 4) by (destruct v; cbn; lia).
  assert (Hch : match v with PCM => 0 | _ => channel end = channel)
    by (destruct v; cbn in Hchannel; lia).
  assert (Hpcm : v = PCM -> channel = 0) by (intros ->; cbn in Hchannel; lia).
  rewrite !stopPlay_mem, Hch.
  set (m1 := stopPlay_effect v channel (mem st)).
  pose proof Hlay as [Hcs Hsp].
  destruct (Z.eq_dec a Z80_DRV_STATUS) as [-> | Hplay].
  { rewrite stopPlay_effect_play by (assumption || lia).
    unfold m1. rewrite stopPlay_effect_play by (assumption || lia).
    apply Z.bits_inj'. intros i Hi.
    destruct (Z.ltb_spec i 8) as [Hlt | Hge].
    - rewrite !testbit_clear by lia. rewrite <- andb_assoc, andb_diag.
      reflexivity.
    - rewrite !(testbit_to_u8 _ i).
      destruct (Z.ltb_spec i 8); [lia | reflexivity]. }
  destruct (Z.eq_dec a (Z80_DRV_STATUS + 1)) as [-> | Hloop].
  { rewrite stopPlay_effect_loop by (assumption || lia).
    unfold m1. rewrite stopPlay_effect_loop by (assumption || lia).
    apply Z.bits_inj'. intros i Hi.
    destruct (Z.ltb_spec i 8) as [Hlt | Hge].
    - rewrite !testbit_clear by lia. rewrite <- andb_assoc, andb_diag.
      reflexivity.
    - rewrite !(testbit_to_u8 _ i).
      destruct (Z.ltb_spec i 8); [lia | reflexivity]. }
  destruct (Z_le_dec (internal_params channel) a) as [Hlo | Hlo];
    [destruct (Z_lt_dec a (internal_params channel + 4)) as [Hhi | Hhi] |].
  - assert (Hc0 : 0 <= channel) by lia.
    pose proof (stopPlay_effect_params v channel m1 Hlay Hc0 Hpcm) as Hp2.
    pose proof (stopPlay_effect_params v channel (mem st) Hlay Hc0 Hpcm) as Hp1.
    fold m1 in Hp1. rewrite <- Hp1 in Hp2.
    unfold read_params in Hp2. injection Hp2 as H0 H1 H2 H3.
    assert (Ha : a = internal_params channel + 0
                 \/ a = internal_params channel + 1
                 \/ a = internal_params channel + 2
                 \/ a = internal_params channel + 3) by lia.
    destruct Ha as [-> | [-> | [-> | ->]]]; assumption.
  - rewrite stopPlay_effect_frame by (assumption || lia). reflexivity.
  - rewrite stopPlay_effect_frame by (assumption || lia). reflexivity.
Qed.

(** X10. [SND_startPlay_PCM] leaves the rate in byte 4 and the pan in byte
    6 of the parameters, each cut to 8 bits, and does not touch byte 5. *)
Theorem startPlay_PCM_rate_pan (st : machine) (sample len rate pan loop : Z) :
  layout_ok H ->
  let m' := mem (exec (SND_startPlay_PCM sample len rate pan loop) st) in
  m' (Z80_DRV_PARAMS + 4) = Z.land rate 0xFF
  /\ m' (Z80_DRV_PARAMS + 6) = Z.land pan 0xFF
  /\ m' (Z80_DRV_PARAMS + 5) = mem st (Z80_DRV_PARAMS + 5).
Proof.
  intros [Hcs Hsp] m'. unfold m'.
  change (SND_startPlay_PCM sample len rate pan loop)
    with (startPlay PCM sample len 0 rate pan loop).
  rewrite startPlay_mem. rewrite <- !to_u8_land.
  cbv [startPlay_effect selected_channel base_params].
  repeat split; mem_cells; reflexivity.
Qed.

(** X22. [isPlaying] right after [startPlay] returns what it returned
    before it: [startPlay] leaves the byte of the play bits alone, whose
    bits only the Z80 raises. *)
Theorem startPlay_then_isPlaying (v : pcm_variant) (st : machine)
    (sample len channel rate pan loop channel_mask : Z) :
  layout_ok H -> 0 <= channel ->
  eval (isPlaying v channel_mask)
    (exec (startPlay v sample len channel rate pan loop) st)
  = eval (isPlaying v channel_mask) st.
Proof.
  intros Hlay Hchannel.
  assert (Hiv : forall s, eval (isPlaying v channel_mask) s
                = to_u8 (Z.land (to_u8 (mem s Z80_DRV_STATUS))
                           (tested_mask v channel_mask))).
  { intros [m ld b tr]. destruct v; reflexivity. }
  rewrite !Hiv, startPlay_mem.
  rewrite startPlay_effect_status;
    [reflexivity | exact Hlay | apply selected_channel_nonneg; exact Hchannel].
Qed.

End Composition.

(** ** The MVS driver *)

Section Trackers.

Context {H : headers}.

(** X11. [SND_isPlaying_MVS] reads the byte [SND_startPlay_MVS] and
    [SND_stopPlay_MVS] write their command to: after a start it returns the
    low 2 bits of [SOUND_MVS_LOOP] or of [SOUND_MVS_ONCE], by the loop
    flag, and after a stop the low 2 bits of [SOUND_MVS_SILENCE]; these
    are the commands themselves when they are from 0 to 3. *)
Theorem MVS_command_read_back (st : machine) (song loop : Z) :
  let command := if c_true loop then SOUND_MVS_LOOP else SOUND_MVS_ONCE in
  eval SND_isPlaying_MVS (exec (SND_startPlay_MVS song loop) st)
  = Z.land command 3
  /\ eval SND_isPlaying_MVS (exec SND_stopPlay_MVS st)
     = Z.land SOUND_MVS_SILENCE 3
  /\ (0 <= command <= 3 ->
      eval SND_isPlaying_MVS (exec (SND_startPlay_MVS song loop) st) = command)
  /\ (0 <= SOUND_MVS_SILENCE <= 3 ->
      eval SND_isPlaying_MVS (exec SND_stopPlay_MVS st) = SOUND_MVS_SILENCE).
Proof.
  intros command.
  assert (Hstart : eval SND_isPlaying_MVS (exec (SND_startPlay_MVS song loop) st)
                   = Z.land command 3).
  { unfold command. destruct st as [m ld b tr]. run_code.
    destruct (c_true loop); run_code; rewrite upd_at by lia;
      apply (low_bits_of_byte _ 2); lia. }
  assert (Hstop : eval SND_isPlaying_MVS (exec SND_stopPlay_MVS st)
                  = Z.land SOUND_MVS_SILENCE 3).
  { destruct st as [m ld b tr]. run_code. rewrite upd_same.
    apply (low_bits_of_byte _ 2). lia. }
  assert (Hsmall : forall x, 0 <= x <= 3 -> Z.land x 3 = x).
  { intros x Hx. change 3 with (Z.ones 2) at 1. rewrite Z.land_ones by lia.
    apply Z.mod_small. change (2 ^ 2) with 4. lia. }
  split; [exact Hstart |]. split; [exact Hstop |]. split.
  - intros Hc. rewrite Hstart. apply Hsmall. exact Hc.
  - intros Hc. rewrite Hstop. apply Hsmall. exact Hc.
Qed.

(** X12. [SND_startPlay_MVS] leaves the low 24 bits of the song address in
    the three bytes at [0xA0151A], low byte first: read back they give the
    address itself when it is below 2^24, and the top byte of a larger
    address is dropped. *)
Theorem startPlay_MVS_address (st : machine) (song loop : Z) :
  0 <= song < 4294967296 ->
  let m' := mem (exec (SND_startPlay_MVS song loop) st) in
  decode24 (m' 0xA0151A) (m' 0xA0151B) (m' 0xA0151C) = song mod 2 ^ 24
  /\ (song < 2 ^ 24 ->
      decode24 (m' 0xA0151A) (m' 0xA0151B) (m' 0xA0151C) = song).
Proof.
  intros Hsong m'.
  assert (Hdec : decode24 (m' 0xA0151A) (m' 0xA0151B) (m' 0xA0151C)
                 = song mod 2 ^ 24).
  { rewrite <- decode24_bytes. unfold m'. destruct st as [m ld b tr].
    run_code. rewrite to_u32_small by exact Hsong.
    destruct (c_true loop); run_code; mem_cells; reflexivity. }
  split; [exact Hdec |].
  intros Hlow. rewrite Hdec. apply Z.mod_small. lia.
Qed.

End Trackers.

(** ** Where the writes go *)

Section Writes.

Context {H : headers}.

(** X13. With a channel of the driver, or the automatic selector,
    [startPlay] writes only to the command byte, to the byte of the loop
    bits and to the base parameters (the first 16 bytes at
    [Z80_DRV_PARAMS]); with a channel of the driver [stopPlay] writes only
    to the two status bytes and to the internal parameters (the next 16
    bytes). *)
Theorem writes_stay_in_their_block (v : pcm_variant) (st : machine)
    (sample len channel rate pan loop : Z) :
  (channel = SOUND_PCM_CH_AUTO \/ 0 <= channel < channels v ->
   Forall (fun w => fst w = Z80_DRV_COMMAND \/ fst w = Z80_DRV_STATUS + 1
                    \/ Z80_DRV_PARAMS <= fst w < Z80_DRV_PARAMS + 0x10)
     (writes_of (events (startPlay v sample len channel rate pan loop) st)))
  /\ (0 <= channel < channels v ->
      Forall (fun w => fst w = Z80_DRV_STATUS + 0 \/ fst w = Z80_DRV_STATUS + 1
                       \/ Z80_DRV_PARAMS + 0x10 <= fst w < Z80_DRV_PARAMS + 0x20)
        (writes_of (events (stopPlay v channel) st))).
Proof.
  split; intros Hchannel.
  - pose proof (selected_channel_range v (to_u8 (mem st Z80_DRV_STATUS))
                  channel Hchannel) as Hch.
    destruct st as [m ld b tr].
    destruct v; cbn [channels] in Hch; revert Hch;
      cbv [selected_channel channels Z.to_nat Pos.to_nat Pos.iter_op Nat.add mem];
      run_code; intros Hch; destruct (c_true loop);
      cbn [app writes_of flat_map fst];
      repeat (constructor; [cbn [fst]; lia |]); constructor.
  - destruct st as [m ld b tr].
    destruct v; cbn [channels] in Hchannel; run_code;
      cbn [app writes_of flat_map fst];
      repeat (constructor; [cbn [fst]; lia |]); constructor.
Qed.

End Writes.

(** * Further properties of the WAV sample preparation *)

(** X14. A read that gives no byte ends the loop as the end of the stream
    does: what the stream would give after it is never read. *)
Theorem read_all_stops_at_empty_read (before after : stream)
    (data : list byte) (off : Z) :
  read_all (before ++ ReadBytes [] :: after) data off
  = read_all before data off.
Proof.
  revert data off.
  induction before as [| [bs |] rest IH]; intros data off; cbn [read_all app].
  - reflexivity.
  - destruct (result_length - off <? 256); [reflexivity |].
    destruct (0 <? Z.of_nat (List.length bs)); [| reflexivity].
    rewrite IH. reflexivity.
  - reflexivity.
Qed.

(** What the loop has done when it returns. *)
Lemma read_all_returned (input : stream) :
  forall data off d,
    fst (read_all input data off) = Returned d ->
    d = (data ++ delivered input)%list
    /\ reads_succeed input = true
    /\ off + Z.of_nat (List.length (delivered input)) <= result_length - 256.
Proof.
  induction input as [| [bs |] rest IH]; intros data off d;
    cbn [read_all delivered reads_succeed];
    destruct (Z.ltb_spec (result_length - off) 256) as [Hfull | Hroom];
    cbn [fst]; try discriminate.
  - intros Hd. injection Hd as <-. rewrite app_nil_r. cbn [List.length].
    repeat split; lia.
  - destruct (Z.ltb_spec 0 (Z.of_nat (List.length bs))) as [Hpos | Hzero].
    + specialize (IH (data ++ bs)%list (off + Z.of_nat (List.length bs)) d).
      destruct (read_all rest (data ++ bs) (off + Z.of_nat (List.length bs)))
        as [r acts].
      cbn [fst] in *. intros Hd. destruct (IH Hd) as (Hdata & Hok & Hfit).
      rewrite length_app, Nat2Z.inj_add, app_assoc.
      repeat split; [exact Hdata | exact Hok | lia].
    + cbn [fst]. intros Hd. injection Hd as <-. rewrite app_nil_r.
      cbn [List.length]. repeat split; lia.
Qed.

Section WavOutcomes.

Variable P : platform.

(** X15. Whenever [getRawDataFromWAV] returns, the file was opened, the
    conversion to the target format is supported, and the array returned
    holds the bytes the converted stream gave up to its first read that is
    not positive, in order; they are never more than the 128 MB of
    [result]. *)
Theorem getRawDataFromWAV_returned (wavPath : string) (bits rate : Z)
    (mono signed bigEndian : bool) (data : list byte) :
  fst (getRawDataFromWAV P wavPath bits rate mono signed bigEndian)
  = Returned data ->
  exists wavFormat,
    getAudioInputStream_file P wavPath = Opened wavFormat
    /\ let dstFormat :=
         target_format wavFormat bits rate mono signed bigEndian in
       isConversionSupported P dstFormat wavFormat = true
       /\ data = delivered (getAudioInputStream_format P dstFormat wavPath)
       /\ Z.of_nat (List.length data) <= result_length.
Proof.
  intros Hd.
  destruct (getAudioInputStream_file P wavPath) as [wavFormat | msg |] eqn:Hopen;
    try (unfold getRawDataFromWAV in Hd; rewrite Hopen in Hd; discriminate Hd).
  set (dstFormat := target_format wavFormat bits rate mono signed bigEndian).
  destruct (isConversionSupported P dstFormat wavFormat) eqn:Hsup.
  - rewrite (getRawDataFromWAV_supported P wavPath bits rate mono signed
               bigEndian wavFormat Hopen Hsup) in Hd.
    fold dstFormat in Hd. cbn [fst] in Hd. unfold finally_close in Hd.
    destruct (resampledInput_close P); [| discriminate Hd].
    destruct (wavInput_close P); [| discriminate Hd].
    cbn [fst] in Hd.
    destruct (read_all_returned
                (getAudioInputStream_format P dstFormat wavPath) [] 0 data Hd)
      as (Hdata & _ & Hfit).
    exists wavFormat. split; [reflexivity |].
    split; [exact Hsup |]. cbn [app] in Hdata.
    split; [exact Hdata |]. rewrite Hdata. unfold result_length in *. lia.
  - rewrite (getRawDataFromWAV_unsupported P wavPath bits rate mono signed
               bigEndian wavFormat Hopen Hsup) in Hd.
    cbn [fst] in Hd. destruct (wavInput_close P); discriminate Hd.
Qed.

(** X16. When the conversion is supported and a read of the converted
    stream fails before the array is full, [getRawDataFromWAV] throws
    [IOException] whatever the two [close()] do; after its reads it calls
    [close()] on the converted stream, and then on the WAV stream exactly
    when the first [close()] returned. *)
Theorem getRawDataFromWAV_read_fails (wavPath : string) (bits rate : Z)
    (mono signed bigEndian : bool) (wavFormat : AudioFormat) :
  getAudioInputStream_file P wavPath = Opened wavFormat ->
  let dstFormat := target_format wavFormat bits rate mono signed bigEndian in
  let input := getAudioInputStream_format P dstFormat wavPath in
  let r := getRawDataFromWAV P wavPath bits rate mono signed bigEndian in
  isConversionSupported P dstFormat wavFormat = true ->
  reads_succeed input = false ->
  Z.of_nat (List.length (delivered input)) <= result_length - 256 ->
  fst r = Thrown IOException
  /\ exists reads,
      Forall (fun a => exists o, a = ActRead o) reads
      /\ snd r
         = ([ActOpenFile wavPath; ActQueryConversion dstFormat wavFormat;
             ActOpenConverted dstFormat] ++ reads
            ++ match resampledInput_close P with
               | Closed => [ActCloseResampled; ActCloseWav]
               | CloseFails => [ActCloseResampled]
               end)%list.
Proof.
  intros Hopen dstFormat input r Hsup Hfail Hfit. unfold r.
  rewrite (getRawDataFromWAV_supported P wavPath bits rate mono signed
             bigEndian wavFormat Hopen Hsup).
  fold dstFormat input. cbn [fst snd].
  rewrite (read_all_fails input [] 0 Hfail) by lia.
  unfold finally_close. split.
  - destruct (resampledInput_close P); [| reflexivity].
    destruct (wavInput_close P); reflexivity.
  - exists (snd (read_all input [] 0)).
    split; [apply read_all_closes_nothing |].
    destruct (resampledInput_close P); [| reflexivity].
    destruct (wavInput_close P); reflexivity.
Qed.

End WavOutcomes.

(** * Properties of fractal.c *)

Import Fractal.

Section Mute.

Context {F : flag_numbers}.

Lemma testbit_flip (x c i : Z) :
  0 <= c -> 0 <= i < 8 ->
  Z.testbit (to_u8 (Z.lxor x (Z.shiftl 1 c))) i
  = xorb (Z.testbit x i) (c =? i).
Proof.
  intros Hc Hi. rewrite testbit_to_u8, Z.lxor_spec, testbit_channel_bit by lia.
  destruct (Z.ltb_spec i 8); [reflexivity | lia].
Qed.

Lemma testbit_raise (x c i : Z) :
  0 <= c -> 0 <= i < 8 ->
  Z.testbit (to_u8 (Z.lor x (Z.shiftl 1 c))) i = Z.testbit x i || (c =? i).
Proof.
  intros Hc Hi. rewrite testbit_to_u8, Z.lor_spec, testbit_channel_bit by lia.
  destruct (Z.ltb_spec i 8); [reflexivity | lia].
Qed.

Lemma testbit_lower (x c i : Z) :
  0 <= c -> 0 <= i < 8 ->
  Z.testbit (to_u8 (Z.land x (Z.lnot (Z.shiftl 1 c)))) i
  = Z.testbit x i && negb (c =? i).
Proof.
  intros Hc Hi.
  rewrite testbit_to_u8, Z.land_spec, Z.lnot_spec, testbit_channel_bit by lia.
  destruct (Z.ltb_spec i 8); [reflexivity | lia].
Qed.

(** What [Fractal_IsMuted] returns: the muted bit in its place. *)
Lemma Fractal_IsMuted_value (channel : Fractal_ChannelMusic) :
  0 <= Fractal_ModeFlag_Muted < 8 ->
  Fractal_IsMuted channel
  = if Z.testbit (modeFlags channel) Fractal_ModeFlag_Muted
    then 2 ^ Fractal_ModeFlag_Muted else 0.
Proof.
  intros Hm. unfold Fractal_IsMuted. apply Z.bits_inj'. intros i Hi.
  rewrite testbit_to_u8, Z.land_spec, testbit_channel_bit by lia.
  destruct (Z.eqb_spec Fractal_ModeFlag_Muted i) as [<- | Hne].
  - destruct (Z.ltb_spec Fractal_ModeFlag_Muted 8); [| lia].
    destruct (Z.testbit (modeFlags channel) Fractal_ModeFlag_Muted);
      cbn [andb]; [rewrite Z.pow2_bits_true by lia | rewrite Z.bits_0];
      reflexivity.
  - rewrite andb_false_r, andb_false_r.
    destruct (Z.testbit (modeFlags channel) Fractal_ModeFlag_Muted);
      [rewrite Z.pow2_bits_false by lia | rewrite Z.bits_0]; reflexivity.
Qed.

(** X17. With the muted flag among the 8 bits of the field:
    [Fractal_IsMuted] is not zero after [Fractal_Mute], is zero after
    [Fractal_Unmute], and after [Fractal_ToggleMute] it is zero exactly
    when it was not before. *)
Theorem mute_then_IsMuted (channel : Fractal_ChannelMusic) :
  0 <= Fractal_ModeFlag_Muted < 8 ->
  Fractal_IsMuted (Fractal_Mute channel) = 2 ^ Fractal_ModeFlag_Muted
  /\ Fractal_IsMuted (Fractal_Mute channel) <> 0
  /\ Fractal_IsMuted (Fractal_Unmute channel) = 0
  /\ (Fractal_IsMuted (Fractal_ToggleMute channel) = 0
      <-> Fractal_IsMuted channel <> 0).
Proof.
  intros Hm.
  assert (Hpow : 2 ^ Fractal_ModeFlag_Muted <> 0)
    by (apply Z.pow_nonzero; lia).
  rewrite !Fractal_IsMuted_value by exact Hm.
  cbv [Fractal_Mute Fractal_Unmute Fractal_ToggleMute modeFlags trackFlags].
  rewrite testbit_raise, testbit_lower, testbit_flip by lia.
  rewrite Z.eqb_refl, orb_true_r, andb_false_r.
  split; [reflexivity |]. split; [exact Hpow |]. split; [reflexivity |].
  destruct (Z.testbit (let (_, modeFlags) := channel in modeFlags)
              Fractal_ModeFlag_Muted); cbn [xorb negb]; split; intros Hx;
    congruence.
Qed.

(** X18. [Fractal_Mute], [Fractal_Unmute] and [Fractal_ToggleMute] change
    no bit of the mode flags but the muted one, raise the volume update
    bit of the track flags and change no other bit of them. *)
Theorem mute_other_flags (channel : Fractal_ChannelMusic) (i : Z) :
  0 <= Fractal_ModeFlag_Muted -> 0 <= Fractal_TrackFlag_VolumeUpdate < 8 ->
  0 <= i < 8 ->
  forall f, f = Fractal_Mute \/ f = Fractal_Unmute \/ f = Fractal_ToggleMute ->
    (i <> Fractal_ModeFlag_Muted ->
     Z.testbit (modeFlags (f channel)) i = Z.testbit (modeFlags channel) i)
    /\ Z.testbit (trackFlags (f channel)) Fractal_TrackFlag_VolumeUpdate = true
    /\ (i <> Fractal_TrackFlag_VolumeUpdate ->
        Z.testbit (trackFlags (f channel)) i
        = Z.testbit (trackFlags channel) i).
Proof.
  intros Hm Hv Hi f Hf.
  assert (Hraise : Z.testbit
                     (to_u8 (Z.lor (trackFlags channel)
                                   (Z.shiftl 1 Fractal_TrackFlag_VolumeUpdate)))
                     Fractal_TrackFlag_VolumeUpdate = true).
  { rewrite testbit_raise by lia. rewrite Z.eqb_refl. apply orb_true_r. }
  assert (Hkeep : i <> Fractal_TrackFlag_VolumeUpdate ->
                  Z.testbit
                    (to_u8 (Z.lor (trackFlags channel)
                                  (Z.shiftl 1 Fractal_TrackFlag_VolumeUpdate))) i
                  = Z.testbit (trackFlags channel) i).
  { intros Hne. rewrite testbit_raise by lia.
    destruct (Z.eqb_spec Fractal_TrackFlag_VolumeUpdate i);
      [congruence | apply orb_false_r]. }
  destruct Hf as [-> | [-> | ->]];
    cbv [Fractal_Mute Fractal_Unmute Fractal_ToggleMute];
    cbn [modeFlags trackFlags];
    (split; [| split; [exact Hraise | exact Hkeep]]); intros Hne.
  - rewrite testbit_raise by lia.
    destruct (Z.eqb_spec Fractal_ModeFlag_Muted i);
      [congruence | apply orb_false_r].
  - rewrite testbit_lower by lia.
    destruct (Z.eqb_spec Fractal_ModeFlag_Muted i);
      [congruence | apply andb_true_r].
  - rewrite testbit_flip by lia.
    destruct (Z.eqb_spec Fractal_ModeFlag_Muted i);
      [congruence | apply xorb_false_r].
Qed.

(** X19. On a channel whose mode flags are a byte, [Fractal_ToggleMute]
    twice gives back the mode flags, and [Fractal_Mute] and
    [Fractal_Unmute] done twice are as done once. *)
Theorem mute_twice (channel : Fractal_ChannelMusic) :
  0 <= Fractal_ModeFlag_Muted -> 0 <= Fractal_TrackFlag_VolumeUpdate ->
  byte_fields channel ->
  modeFlags (Fractal_ToggleMute (Fractal_ToggleMute channel))
  = modeFlags channel
  /\ Fractal_Mute (Fractal_Mute channel) = Fractal_Mute channel
  /\ Fractal_Unmute (Fractal_Unmute channel) = Fractal_Unmute channel.
Proof.
  intros Hm Hv [Htrack Hmode].
  assert (Hbits : forall x y, 0 <= x < 256 -> 0 <= y < 256 ->
                    (forall i, 0 <= i < 8 -> Z.testbit x i = Z.testbit y i) ->
                    x = y).
  { intros x y Hx Hy Hsame. rewrite <- (to_u8_small x), <- (to_u8_small y)
      by assumption.
    apply Z.bits_inj'. intros i Hi. rewrite !testbit_to_u8.
    destruct (Z.ltb_spec i 8); [apply Hsame; lia | reflexivity]. }
  assert (Htwice_track :
            to_u8 (Z.lor (to_u8 (Z.lor (trackFlags channel)
                                   (Z.shiftl 1 Fractal_TrackFlag_VolumeUpdate)))
                         (Z.shiftl 1 Fractal_TrackFlag_VolumeUpdate))
            = to_u8 (Z.lor (trackFlags channel)
                           (Z.shiftl 1 Fractal_TrackFlag_VolumeUpdate))).
  { apply Hbits; try apply to_u8_range. intros i Hi.
    rewrite !testbit_raise by lia. rewrite <- orb_assoc, orb_diag.
    reflexivity. }
  split; [| split].
  - cbv [Fractal_ToggleMute]. cbn [modeFlags trackFlags].
    apply Hbits; [apply to_u8_range | exact Hmode |]. intros i Hi.
    rewrite !testbit_flip by lia. rewrite xorb_assoc, xorb_nilpotent.
    apply xorb_false_r.
  - cbv [Fractal_Mute]. cbn [modeFlags trackFlags]. f_equal;
      [exact Htwice_track |].
    apply Hbits; try apply to_u8_range. intros i Hi.
    rewrite !testbit_raise by lia. rewrite <- orb_assoc, orb_diag.
    reflexivity.
  - cbv [Fractal_Unmute]. cbn [modeFlags trackFlags]. f_equal;
      [exact Htwice_track |].
    apply Hbits; try apply to_u8_range. intros i Hi.
    rewrite !testbit_lower by lia. rewrite <- andb_assoc, andb_diag.
    reflexivity.
Qed.

End Mute.

(** ** The block copy *)

(** The loop of [Fractal_Decompress] entered with [d0] ends by the test of
    [dbf] after [d0 + 1] turns: the fuel left over is not used. *)
Lemma copy_bytes_fuel (fuel : nat) :
  forall m d0 a1 a2,
    0 <= d0 < 65536 -> (Z.to_nat (d0 + 1) <= fuel)%nat ->
    copy_bytes fuel m d0 a1 a2 = copy_bytes (Z.to_nat (d0 + 1)) m d0 a1 a2.
Proof.
  induction fuel as [| fuel IH]; intros m d0 a1 a2 Hd0 Hfuel.
  - lia.
  - replace (Z.to_nat (d0 + 1)) with (S (Z.to_nat d0)) by lia.
    cbn [copy_bytes].
    destruct (Z.eq_dec d0 0) as [-> | Hpos].
    + change (to_u16 (0 - 1) =? 65535) with true. reflexivity.
    + assert (Hw : to_u16 (d0 - 1) = d0 - 1)
        by (unfold to_u16; apply Z.mod_small; lia).
      rewrite Hw. destruct (Z.eqb_spec (d0 - 1) 65535) as [Heq | _]; [lia |].
      rewrite IH by lia.
      replace (Z.to_nat (d0 - 1 + 1)) with (Z.to_nat d0) by lia. reflexivity.
Qed.

(** With fuel for [d0 + 1] turns the loop copies [d0 + 1] bytes, when the
    regions do not make it read a byte it has written. *)
Lemma copy_bytes_spec (fuel : nat) :
  forall m d0 a1 a2,
    0 <= d0 < 65536 -> fuel = Z.to_nat (d0 + 1) ->
    (a2 <= a1 \/ a1 + d0 + 1 <= a2) ->
    let r := copy_bytes fuel m d0 a1 a2 in
    (forall i, 0 <= i <= d0 -> r (a2 + i) = to_u8 (m (a1 + i)))
    /\ (forall a, ~ (a2 <= a <= a2 + d0) -> r a = m a).
Proof.
  induction fuel as [| fuel IH]; intros m d0 a1 a2 Hd0 Hfuel Hregions.
  - lia.
  - cbn [copy_bytes].
    destruct (Z.eq_dec d0 0) as [-> | Hpos].
    + change (to_u16 (0 - 1) =? 65535) with true. cbv iota. split.
      * intros i Hi. replace i with 0 by lia. rewrite !Z.add_0_r.
        apply upd_same.
      * intros a Ha. apply upd_other. lia.
    + assert (Hw : to_u16 (d0 - 1) = d0 - 1)
        by (unfold to_u16; apply Z.mod_small; lia).
      rewrite Hw. destruct (Z.eqb_spec (d0 - 1) 65535) as [Heq | _]; [lia |].
      destruct (IH (upd m a2 (to_u8 (m a1))) (d0 - 1) (a1 + 1) (a2 + 1))
        as (Hcopy & Hframe); [lia | lia | lia |].
      split.
      * intros i Hi. destruct (Z.eq_dec i 0) as [-> | Hi0].
        -- rewrite !Z.add_0_r. rewrite Hframe by lia. apply upd_same.
        -- replace (a2 + i) with (a2 + 1 + (i - 1)) by lia.
           rewrite Hcopy by lia. rewrite upd_other by lia.
           replace (a1 + 1 + (i - 1)) with (a1 + i) by lia. reflexivity.
      * intros a Ha. rewrite Hframe by lia. apply upd_other. lia.
Qed.

(** X20. When the 16 bit count at [source], read high byte first, is from
    1 to 0x8000 and the destination does not start inside the bytes to
    copy, [Fractal_Decompress] copies that many bytes from [source + 2] to
    [destination] and changes no other byte; its loop has ended by the test
    of [dbf] after that many turns, so that any fuel from the count up
    gives the same memory. *)
Theorem Fractal_Decompress_copies (m : memory) (source destination : Z) :
  let counter := to_u8 (m source) * 256 + to_u8 (m (source + 1)) in
  1 <= counter <= 0x8000 ->
  destination <= source + 2 \/ source + 2 + counter <= destination ->
  let m' := Fractal_Decompress m source destination in
  (forall i, 0 <= i < counter ->
      m' (destination + i) = to_u8 (m (source + 2 + i)))
  /\ (forall a, ~ (destination <= a < destination + counter) -> m' a = m a)
  /\ (forall fuel, (Z.to_nat counter <= fuel)%nat ->
        copy_bytes fuel m (counter - 1) (source + 2) destination = m').
Proof.
  intros counter Hcounter Hregions m'.
  assert (Hw : to_u16 (counter - 1) = counter - 1)
    by (unfold to_u16; apply Z.mod_small; lia).
  assert (Hn : Z.testbit (counter - 1) 15 = false).
  { destruct (Z.eq_dec counter 1) as [-> | Hne]; [reflexivity |].
    apply Z.bits_above_log2; [lia |].
    apply Z.log2_lt_pow2; [lia | change (2 ^ 15) with 32768; lia]. }
  assert (Hm' : m' = copy_bytes (Z.to_nat (counter - 1 + 1)) m (counter - 1)
                       (source + 2) destination).
  { unfold m', Fractal_Decompress. fold counter. rewrite Hw, Hn.
    apply copy_bytes_fuel; lia. }
  destruct (copy_bytes_spec (Z.to_nat (counter - 1 + 1)) m (counter - 1)
              (source + 2) destination) as (Hcopy & Hframe);
    [lia | reflexivity | lia |].
  rewrite Hm'. split; [| split].
  - intros i Hi. apply Hcopy. lia.
  - intros a Ha. apply Hframe. lia.
  - intros fuel Hfuel. apply copy_bytes_fuel; lia.
Qed.

(** X21. When the count at [source] is 0 or above 0x8000,
    [Fractal_Decompress] copies nothing: the word left by [subq.w] is
    negative and [bmi.s] leaves at once. *)
Theorem Fractal_Decompress_no_copy (m : memory) (source destination : Z) :
  let counter := to_u8 (m source) * 256 + to_u8 (m (source + 1)) in
  counter = 0 \/ 0x8000 < counter ->
  Fractal_Decompress m source destination = m.
Proof.
  intros counter Hcounter. unfold Fractal_Decompress. fold counter.
  pose proof (to_u8_range (m source)) as H0.
  pose proof (to_u8_range (m (source + 1))) as H1.
  assert (Hrange : 0 <= counter < 65536) by (unfold counter; lia).
  assert (Hn : Z.testbit (to_u16 (counter - 1)) 15 = true).
  { destruct Hcounter as [-> | Hbig]; [reflexivity |].
    assert (Hw : to_u16 (counter - 1) = counter - 1)
      by (unfold to_u16; apply Z.mod_small; lia).
    rewrite Hw.
    apply Z.testbit_true; [lia |]. change (2 ^ 15) with 32768.
    replace ((counter - 1) / 32768) with 1; [reflexivity |].
    apply (Z.div_unique (counter - 1) 32768 1 (counter - 1 - 32768)); lia. }
  rewrite Hn. reflexivity.
Qed.

(** * The further properties at work on concrete inputs *)

(** Settles a closed arithmetic side condition by evaluating it. *)
Ltac by_evaluation :=
  vm_compute; intuition (first [reflexivity | discriminate]).

(** 4PCM with channels 0 and 2 playing: the mask of channel 2 gives a
    value that is not zero. *)
Lemma isPlaying_some_channel_witness :
  let r := eval (@isPlaying window PCM4 4) (machine_of 5) in
  0 <= r < 256 /\ r <> 0.
Proof.
  destruct (@isPlaying_some_channel window PCM4 (machine_of 5) 4)
    as (Hrange & Hiff).
  split; [exact Hrange |].
  apply Hiff. exists 2. split; [lia |]. split; reflexivity.
Defined.

Lemma queries_only_read_witness :
  mem (exec (@run window (Call_getVolume_4PCM_ENV 1)) (machine_of 7))
  = mem (machine_of 7)
  /\ writes_of (@events_of window (Call_getVolume_4PCM_ENV 1) (machine_of 7))
     = [].
Proof.
  apply (@queries_only_read window (Call_getVolume_4PCM_ENV 1) (machine_of 7)).
  reflexivity.
Defined.

Lemma stopPlay_then_isPlaying_witness :
  eval (@isPlaying window PCM4 (Z.shiftl 1 2))
    (exec (@stopPlay window PCM4 2) (machine_of 0xFF)) = 0.
Proof.
  apply (@stopPlay_then_isPlaying window PCM4 (machine_of 0xFF) 2).
  - exact window_layout.
  - cbn [channels]. lia.
Defined.

(** Volume 9 set on channel 2 of a window of bytes 7: channel 1 still
    reads 7. *)
Lemma setVolume_other_channels_witness :
  let st' := exec (@SND_setVolume_4PCM_ENV window 2 9) (machine_of 7) in
  mem st' (@Z80_DRV_PARAMS window + 0x20 + 1) = 7
  /\ eval (@SND_getVolume_4PCM_ENV window 1) st' = 7.
Proof.
  destruct (@setVolume_other_channels window (machine_of 7) 2 9)
    as (Hcells & Hget).
  split.
  - rewrite Hcells; [reflexivity | cbn; lia].
  - rewrite Hget; [reflexivity | lia].
Defined.

(** 4PCM started on channel 1 in a window of bytes 5: the first parameter
    byte of channel 0 and the loop bit of channel 0 are as they were. *)
Lemma startPlay_other_cells_witness :
  let m' :=
    mem (exec (@startPlay window PCM4 0x1000 0x200 1 0 0 0) (machine_of 5)) in
  m' (@base_params window 0 + 0) = 5
  /\ Z.testbit (m' (@Z80_DRV_STATUS window + 1)) 0 = true.
Proof.
  destruct (@startPlay_other_cells window PCM4 (machine_of 5) 0x1000 0x200 1 0 0 0)
    as (Hcells & Hbits).
  - exact window_layout.
  - lia.
  - split.
    + rewrite Hcells; [reflexivity | cbn; lia | cbn; lia | cbn; lia
                      | discriminate].
    + rewrite Hbits; [reflexivity | lia | discriminate].
Defined.

(** 4PCM with channels 0 and 2 playing: two automatic starts in a row
    both take channel 1, whose parameters end with the second sample. *)
Lemma startPlay_auto_twice_witness :
  let auto := @SOUND_PCM_CH_AUTO window in
  let st1 := exec (@startPlay window PCM4 0x1000 0x200 auto 0 0 0) (machine_of 5) in
  let st2 := exec (@startPlay window PCM4 0x3400 0x500 auto 0 0 1) st1 in
  @selected_channel window PCM4 (to_u8 (mem st1 (@Z80_DRV_STATUS window))) auto
  = 1
  /\ read_params (mem st2) (@base_params window 1) = [0x34; 0x00; 0x05; 0x00].
Proof.
  apply (@startPlay_auto_twice window PCM4 (machine_of 5)
           0x1000 0x200 0 0x3400 0x500 1 0 0).
  - exact window_layout.
  - discriminate.
  - lia.
Defined.

(** 4PCM, channel 3 started and stopped at once in a window of zeros. *)
Lemma startPlay_then_stopPlay_witness :
  let st1 := exec (@startPlay window PCM4 0x1000 0x200 3 0 0 1) (machine_of 0) in
  let m2 := mem (exec (@stopPlay window PCM4 3) st1) in
  Z.testbit (m2 (@Z80_DRV_STATUS window)) 3 = false
  /\ Z.testbit (m2 (@Z80_DRV_STATUS window + 1)) 3 = false
  /\ Z.testbit (m2 (@Z80_DRV_COMMAND window)) 3 = true
  /\ read_params m2 (@base_params window 3) = [0x10; 0x00; 0x02; 0x00]
  /\ read_params m2 (@internal_params window 3) = [0x12; 0x00; 0x01; 0x00].
Proof.
  apply (@startPlay_then_stopPlay window PCM4 (machine_of 0) 0x1000 0x200 3 0 0 1).
  - exact window_layout.
  - cbn [channels]. lia.
  - discriminate.
  - lia.
Defined.

Lemma stopPlay_twice_witness :
  let st1 := exec (@stopPlay window ADPCM2 1) (machine_of 0xFF) in
  mem (exec (@stopPlay window ADPCM2 1) st1) (@Z80_DRV_STATUS window)
  = mem st1 (@Z80_DRV_STATUS window).
Proof.
  apply (@stopPlay_twice window ADPCM2 (machine_of 0xFF) 1).
  - exact window_layout.
  - cbn [channels]. lia.
Defined.

Lemma startPlay_PCM_rate_pan_witness :
  let m' :=
    mem (exec (@SND_startPlay_PCM window 0x1000 0x200 0x103 0xC0 0) (machine_of 9)) in
  m' (@Z80_DRV_PARAMS window + 4) = 3
  /\ m' (@Z80_DRV_PARAMS window + 6) = 0xC0
  /\ m' (@Z80_DRV_PARAMS window + 5) = 9.
Proof.
  apply (@startPlay_PCM_rate_pan window (machine_of 9) 0x1000 0x200 0x103 0xC0 0).
  exact window_layout.
Defined.

(** 4PCM with channels 0 and 2 playing: after a start on channel 1 the
    mask of channel 1 still reads 0. *)
Lemma startPlay_then_isPlaying_witness :
  eval (@isPlaying window PCM4 2)
    (exec (@startPlay window PCM4 0x1000 0x200 1 0 0 0) (machine_of 5))
  = 0.
Proof.
  rewrite (@startPlay_then_isPlaying window PCM4 (machine_of 5)
             0x1000 0x200 1 0 0 0 2).
  - reflexivity.
  - exact window_layout.
  - lia.
Defined.

(** With the commands 0, 1 and 2: a looping start reads back as 1, a stop
    as 0. *)
Lemma MVS_command_read_back_witness :
  eval SND_isPlaying_MVS
    (exec (@SND_startPlay_MVS window 0x20000 1) (machine_of 0xFF)) = 1
  /\ eval SND_isPlaying_MVS
       (exec (@SND_stopPlay_MVS window) (machine_of 0xFF)) = 0.
Proof.
  destruct (@MVS_command_read_back window (machine_of 0xFF) 0x20000 1)
    as (_ & _ & Hstart & Hstop).
  split.
  - apply Hstart. cbn. lia.
  - apply Hstop. cbn. lia.
Defined.

(** Song at 0x12ABCDEF: the three bytes read back as 0xABCDEF. *)
Lemma startPlay_MVS_address_witness :
  let m' :=
    mem (exec (@SND_startPlay_MVS window 0x12ABCDEF 0) (machine_of 0)) in
  decode24 (m' 0xA0151A) (m' 0xA0151B) (m' 0xA0151C) = 0xABCDEF
  /\ decode24
       (mem (exec (@SND_startPlay_MVS window 0x345678 0) (machine_of 0)) 0xA0151A)
       (mem (exec (@SND_startPlay_MVS window 0x345678 0) (machine_of 0)) 0xA0151B)
       (mem (exec (@SND_startPlay_MVS window 0x345678 0) (machine_of 0)) 0xA0151C)
     = 0x345678.
Proof.
  split.
  - destruct (@startPlay_MVS_address window (machine_of 0) 0x12ABCDEF 0)
      as (Hlow & _); [lia |].
    exact Hlow.
  - destruct (@startPlay_MVS_address window (machine_of 0) 0x345678 0)
      as (_ & Hsame); [lia |].
    apply Hsame. reflexivity.
Defined.

Lemma writes_stay_in_their_block_witness :
  map fst
    (writes_of (events (@startPlay window PCM4 0x1000 0x200 2 0 0 1) (machine_of 0)))
  = [0xA0010C; 0xA0010D; 0xA0010E; 0xA0010F; 0xA00100; 0xA00103]
  /\ Forall (fun w => fst w = @Z80_DRV_STATUS window + 0
                      \/ fst w = @Z80_DRV_STATUS window + 1
                      \/ @Z80_DRV_PARAMS window + 0x10 <= fst w
                         < @Z80_DRV_PARAMS window + 0x20)
       (writes_of (events (@stopPlay window PCM4 2) (machine_of 0))).
Proof.
  destruct (@writes_stay_in_their_block window PCM4 (machine_of 0)
              0x1000 0x200 2 0 0 1) as (_ & Hstop).
  split; [reflexivity |].
  apply Hstop. cbn [channels]. lia.
Defined.

(** The two chunks of 3 and 2 bytes come back as 5 bytes. *)
Lemma getRawDataFromWAV_returned_witness :
  exists wavFormat,
    getAudioInputStream_file (platform_of true two_chunks) "s.wav"
    = Opened wavFormat
    /\ [x01; x02; x03; x04; x05]
       = delivered
           (getAudioInputStream_format (platform_of true two_chunks)
              (target_format wavFormat 8 16000 true true false) "s.wav").
Proof.
  destruct (getRawDataFromWAV_returned (platform_of true two_chunks)
              "s.wav" 8 16000 true true false [x01; x02; x03; x04; x05])
    as (wavFormat & Hopen & _ & Hdata & _).
  - reflexivity.
  - exists wavFormat. split; [exact Hopen | exact Hdata].
Defined.

(** A first chunk of 3 bytes, then a read that fails, on a platform whose
    [close()] of the converted stream fails too: the WAV stream is not
    closed. *)
Lemma getRawDataFromWAV_read_fails_witness :
  getRawDataFromWAV
    (platform_closing true [ReadBytes [x01; x02; x03]; ReadFails]
       CloseFails Closed)
    "s.wav" 8 16000 true true false
  = (Thrown IOException,
     [ActOpenFile "s.wav";
      ActQueryConversion (mkAudioFormat PCM_SIGNED 16000 8 1 1 16000 false)
        cd_format;
      ActOpenConverted (mkAudioFormat PCM_SIGNED 16000 8 1 1 16000 false);
      ActRead 0; ActRead 3; ActCloseResampled]).
Proof.
  destruct (getRawDataFromWAV_read_fails
              (platform_closing true [ReadBytes [x01; x02; x03]; ReadFails]
                 CloseFails Closed)
              "s.wav" 8 16000 true true false cd_format eq_refl)
    as (Hthrown & _).
  - reflexivity.
  - reflexivity.
  - vm_compute. discriminate.
  - apply injective_projections; [exact Hthrown | reflexivity].
Defined.

(** Mode flags 0x03 with the muted flag at bit 5. *)
Lemma mute_then_IsMuted_witness :
  let channel := mkChannelMusic 0x00 0x03 in
  @Fractal_IsMuted sample_flags (@Fractal_Mute sample_flags channel) = 32
  /\ @Fractal_IsMuted sample_flags (@Fractal_Unmute sample_flags channel) = 0
  /\ @Fractal_IsMuted sample_flags (@Fractal_ToggleMute sample_flags channel)
     <> 0.
Proof.
  destruct (@mute_then_IsMuted sample_flags (mkChannelMusic 0x00 0x03))
    as (Hmute & _ & Hunmute & Htoggle).
  - cbn. lia.
  - split; [exact Hmute |]. split; [exact Hunmute |].
    intros Hzero. apply Htoggle in Hzero. apply Hzero. reflexivity.
Defined.

Lemma mute_other_flags_witness :
  let channel := mkChannelMusic 0x81 0x03 in
  Z.testbit (modeFlags (@Fractal_Mute sample_flags channel)) 0 = true
  /\ Z.testbit (trackFlags (@Fractal_Mute sample_flags channel)) 2 = true
  /\ Z.testbit (trackFlags (@Fractal_Mute sample_flags channel)) 0 = true.
Proof.
  destruct (@mute_other_flags sample_flags (mkChannelMusic 0x81 0x03) 0
              ltac:(cbn; lia) ltac:(cbn; lia) ltac:(lia)
              (@Fractal_Mute sample_flags) (or_introl eq_refl))
    as (Hmode & Hupdate & Htrack).
  split; [rewrite Hmode; [reflexivity | discriminate] |].
  split; [exact Hupdate |].
  rewrite Htrack; [reflexivity | discriminate].
Defined.

Lemma mute_twice_witness :
  let channel := mkChannelMusic 0x81 0x23 in
  modeFlags (@Fractal_ToggleMute sample_flags
               (@Fractal_ToggleMute sample_flags channel)) = 0x23
  /\ @Fractal_Mute sample_flags (@Fractal_Mute sample_flags channel)
     = @Fractal_Mute sample_flags channel.
Proof.
  destruct (@mute_twice sample_flags (mkChannelMusic 0x81 0x23))
    as (Htoggle & Hmute & _).
  - cbn. lia.
  - cbn. lia.
  - unfold byte_fields. cbn. lia.
  - split; [exact Htoggle | exact Hmute].
Defined.

(** A count of 3 at address 0, then the bytes 10, 20, 30: they are copied
    to address 8, and the loop run with 5 units of fuel gives the same
    byte at address 11 as the function, not the byte a fourth turn would
    copy there. *)
Lemma Fractal_Decompress_copies_witness :
  let m := memory_of [0; 3; 10; 20; 30; 40; 50; 60; 1; 2; 3; 4] in
  let m' := Fractal_Decompress m 0 8 in
  m' 8 = 10 /\ m' 9 = 20 /\ m' 10 = 30 /\ m' 11 = 4 /\ m' 5 = 40
  /\ copy_bytes 5 m 2 2 8 11 = 4.
Proof.
  destruct (Fractal_Decompress_copies
              (memory_of [0; 3; 10; 20; 30; 40; 50; 60; 1; 2; 3; 4]) 0 8)
    as (Hcopy & Hframe & Hfuel).
  - by_evaluation.
  - right. by_evaluation.
  - split; [exact (Hcopy 0 ltac:(by_evaluation)) |].
    split; [exact (Hcopy 1 ltac:(by_evaluation)) |].
    split; [exact (Hcopy 2 ltac:(by_evaluation)) |].
    split; [exact (Hframe 11 ltac:(by_evaluation)) |].
    split; [exact (Hframe 5 ltac:(by_evaluation)) |].
    exact (eq_trans
             (f_equal (fun f => f 11) (Hfuel 5%nat ltac:(vm_compute; repeat constructor)))
             (Hframe 11 ltac:(by_evaluation))).
Defined.

(** A count of 0x8001 copies nothing. *)
Lemma Fractal_Decompress_no_copy_witness :
  Fractal_Decompress (memory_of [0x80; 0x01; 10; 20; 30]) 0 8
  = memory_of [0x80; 0x01; 10; 20; 30].
Proof.
  apply (Fractal_Decompress_no_copy (memory_of [0x80; 0x01; 10; 20; 30]) 0 8).
  right. by_evaluation.
Defined.
